(** * failprint.capture: capture of standard output and error at the
      file-descriptor level

    A shallow embedding of [src/failprint/capture.py].  The file has three
    layers:

    - the enumeration [Capture] and its normalisation [cast];
    - a model of the part of the process the module touches: the table of
      open descriptors, the files behind them, the heap of Python stream
      objects, the three [sys] streams, and an oracle that decides which
      operating-system call fails;
    - [CaptureManager] with [__init__], [__enter__], [__exit__], [output]
      and [__str__], written in a state-and-exception monad over the pair
      (the manager, the process), so that an exception leaves the partial
      mutation of both behind, as in Python. *)

From stdpp Require Import gmap strings list fin_maps fin_sets.
From Stdlib Require Import ZArith Lia Ascii.

Open Scope string_scope.
Open Scope list_scope.
Open Scope Z_scope.

(** ** Bytes and text *)

(** A byte is an integer in [0, 255]; a Python [str] is its sequence of
    Unicode code points. *)
Abbreviation bytes := (list Z).
Abbreviation text := (list Z).

(** ** Exceptions and results *)

Inductive exn : Set :=
| OSError
| ValueError
| RuntimeError
| TypeError
| AttributeError
| UnicodeDecodeError
| UnsupportedOperation.

Inductive result (A : Type) : Type :=
| Ok (a : A)
| Raise (e : exn).
Arguments Ok {A} a.
Arguments Raise {A} e.

(** ** The enumeration *)

Inductive Capture : Set := STDOUT | STDERR | BOTH | NONE.

#[global] Instance Capture_eq_dec : EqDecision Capture.
Proof. solve_decision. Defined.

(** The member values of lines 23-26. *)
Definition value (c : Capture) : string :=
  match c with
  | STDOUT => "stdout"
  | STDERR => "stderr"
  | BOTH => "both"
  | NONE => "none"
  end.

(** The members in definition order. *)
Definition members : list Capture := [STDOUT; STDERR; BOTH; NONE].

(** [cls(value)] on a string: the enumeration looks the member up by value,
    by exact comparison, and raises [ValueError] when there is none. *)
Definition Capture_call (s : string) : result Capture :=
  match List.find (fun c => String.eqb s (value c)) members with
  | Some c => Ok c
  | None => Raise ValueError
  end.

(** The values [cast] accepts: [str | bool | Capture | None]. *)
Inductive cast_arg : Set :=
| ArgNone
| ArgBool (b : bool)
| ArgCapture (c : Capture)
| ArgStr (s : string).

(** [Capture.cast], lines 31-51. *)
Definition cast (v : cast_arg) : result Capture :=
  match v with
  | ArgNone => Ok BOTH
  | ArgBool true => Ok BOTH
  | ArgBool false => Ok NONE
  | ArgCapture c => Ok c
  | ArgStr s => Capture_call s
  end.

(** [Capture.__str__], lines 28-29: the value in lower case.  The values are
    lower case already. *)
Definition lower_ascii (a : Ascii.ascii) : Ascii.ascii :=
  let n := Ascii.nat_of_ascii a in
  if ((65 <=? n) && (n <=? 90))%nat then Ascii.ascii_of_nat (n + 32) else a.

Fixpoint lower (s : string) : string :=
  match s with
  | EmptyString => EmptyString
  | String a r => String (lower_ascii a) (lower r)
  end.

Definition Capture_str (c : Capture) : string := lower (value c).

(** ** The state-and-exception monad

    A computation takes a state and returns a state together with a value
    or an exception: what the code did before it raised stays done. *)

Definition M (S A : Type) : Type := S → S * result A.

Definition ret {S A : Type} (a : A) : M S A := λ s, (s, Ok a).

Definition raise {S A : Type} (e : exn) : M S A := λ s, (s, Raise e).

Definition bind {S A B : Type} (m : M S A) (k : A → M S B) : M S B :=
  λ s, match m s with
       | (s', Ok a) => k a s'
       | (s', Raise e) => (s', Raise e)
       end.

(** [try: m finally: h]; an exception of [h] replaces the outcome of [m]. *)
Definition finally {S A : Type} (m : M S A) (h : M S unit) : M S A :=
  λ s, match m s with
       | (s', r) =>
           match h s' with
           | (s'', Ok _) => (s'', r)
           | (s'', Raise e) => (s'', Raise e)
           end
       end.

Definition gets {S A : Type} (f : S → A) : M S A := λ s, (s, Ok (f s)).

Definition modify {S : Type} (f : S → S) : M S unit := λ s, (f s, Ok ()).

Declare Scope py_scope.
Delimit Scope py_scope with py.
Notation "x <- m ;; k" := (bind m (λ x, k))
  (at level 100, m at next level, right associativity) : py_scope.
Notation "m ;; k" := (bind m (λ _, k))
  (at level 100, right associativity) : py_scope.
Open Scope py_scope.

(** A monadic loop that collects the results, stopping at the first
    exception. *)
Fixpoint mapM {S A B : Type} (f : A → M S B) (l : list A) : M S (list B) :=
  match l with
  | [] => ret []
  | a :: r => b <- f a ;; bs <- mapM f r ;; ret (b :: bs)
  end.

(** ** The process *)

(** What an open descriptor points at: the discard device, a destination
    that exists before the capture (a terminal, a pipe, a log file), or the
    [n]-th anonymous temporary file. *)
Inductive file : Set :=
| DevNull
| Dest (n : nat)
| Temp (n : nat).

#[global] Instance file_eq_dec : EqDecision file.
Proof. solve_decision. Defined.

#[global] Instance file_countable : Countable file :=
  inj_countable'
    (λ f, match f with
          | DevNull => inl ()
          | Dest n => inr (inl n)
          | Temp n => inr (inr n)
          end)
    (λ x, match x with
          | inl _ => DevNull
          | inr (inl n) => Dest n
          | inr (inr n) => Temp n
          end)
    (λ f, match f with
          | DevNull => eq_refl
          | Dest _ => eq_refl
          | Temp _ => eq_refl
          end).

(** A Python file object over a descriptor ([io.TextIOWrapper],
    [io.BufferedWriter], ...): its descriptor, whether closing the object
    closes the descriptor, whether a buffer sits between [write] and the
    descriptor (then the object's [buffer] has a [raw] attribute), whether
    it is closed, and the bytes written but not yet flushed. *)
Record fileobj : Set := FileObj {
  fileno : Z;
  closefd : bool;
  buffered : bool;
  closed : bool;
  pending : bytes;
}.

Inductive stream : Set :=
| OfFile (f : fileobj)
| StringIO (content : string) (is_closed : bool).

(** The process state the module reads and writes. *)
Record World : Type := mkWorld {
  fds : gmap Z file;            (* the descriptor table *)
  disk : gmap file bytes;       (* what was written to each file *)
  objs : list stream;           (* the heap of stream objects *)
  sys_stdin : option nat;       (* sys.stdin: a reference, or None *)
  sys_stdout : option nat;
  sys_stderr : option nat;
  next_temp : nat;              (* names the next temporary file *)
  faults : option nat;          (* Some k: the (k+1)-th system call fails *)
}.

Definition set_fds (f : gmap Z file → gmap Z file) (w : World) : World :=
  mkWorld (f (fds w)) (disk w) (objs w) (sys_stdin w) (sys_stdout w)
          (sys_stderr w) (next_temp w) (faults w).
Definition set_disk (f : gmap file bytes → gmap file bytes) (w : World) : World :=
  mkWorld (fds w) (f (disk w)) (objs w) (sys_stdin w) (sys_stdout w)
          (sys_stderr w) (next_temp w) (faults w).
Definition set_objs (f : list stream → list stream) (w : World) : World :=
  mkWorld (fds w) (disk w) (f (objs w)) (sys_stdin w) (sys_stdout w)
          (sys_stderr w) (next_temp w) (faults w).
Definition set_sys_stdin (r : option nat) (w : World) : World :=
  mkWorld (fds w) (disk w) (objs w) r (sys_stdout w)
          (sys_stderr w) (next_temp w) (faults w).
Definition set_sys_stdout (r : option nat) (w : World) : World :=
  mkWorld (fds w) (disk w) (objs w) (sys_stdin w) r
          (sys_stderr w) (next_temp w) (faults w).
Definition set_sys_stderr (r : option nat) (w : World) : World :=
  mkWorld (fds w) (disk w) (objs w) (sys_stdin w) (sys_stdout w)
          r (next_temp w) (faults w).
Definition set_next_temp (n : nat) (w : World) : World :=
  mkWorld (fds w) (disk w) (objs w) (sys_stdin w) (sys_stdout w)
          (sys_stderr w) n (faults w).
Definition set_faults (k : option nat) (w : World) : World :=
  mkWorld (fds w) (disk w) (objs w) (sys_stdin w) (sys_stdout w)
          (sys_stderr w) (next_temp w) k.

(** *** System calls *)

(** Every system call first asks the oracle whether it fails. *)
Definition syscall : M World unit :=
  λ w, match faults w with
       | None => (w, Ok ())
       | Some O => (set_faults None w, Raise OSError)
       | Some (S k) => (set_faults (Some k) w, Ok ())
       end.

(** The lowest descriptor number that is not open, searched from [k] over
    [n] candidates; among [size t + 1] candidates one is free. *)
Fixpoint lowest_from (t : gmap Z file) (n : nat) (k : Z) : Z :=
  match n with
  | O => k
  | S n' =>
      match t !! k with
      | None => k
      | Some _ => lowest_from t n' (k + 1)
      end
  end.

Definition lowest_unused (t : gmap Z file) : Z := lowest_from t (size t) 0.

(** The file behind an open descriptor, [EBADF] otherwise. *)
Definition file_of (fd : Z) : M World file :=
  t <- gets fds ;;
  match t !! fd with
  | Some f => ret f
  | None => raise OSError
  end.

(** [os.dup(fd)]: the lowest unused descriptor becomes a second name of
    the same open file. *)
Definition os_dup (fd : Z) : M World Z :=
  syscall ;;
  f <- file_of fd ;;
  t <- gets fds ;;
  let n := lowest_unused t in
  modify (set_fds (insert n f)) ;;
  ret n.

(** [os.dup2(fd, fd2)]: [fd2] becomes a name of the file behind [fd]; what
    [fd2] named before is silently closed. *)
Definition os_dup2 (fd fd2 : Z) : M World Z :=
  syscall ;;
  f <- file_of fd ;;
  if fd2 <? 0 then raise OSError
  else modify (set_fds (insert fd2 f)) ;; ret fd2.

(** [os.close(fd)]. *)
Definition os_close (fd : Z) : M World unit :=
  syscall ;;
  _ <- file_of fd ;;
  modify (set_fds (delete fd)).

(** Appending to a file; the discard device keeps nothing. *)
Definition append_file (f : file) (data : bytes) (d : gmap file bytes)
  : gmap file bytes :=
  match f with
  | DevNull => d
  | _ => <[f := default [] (d !! f) ++ data]> d
  end.

(** [os.write(fd, data)], also what a child process or a native library
    does with an inherited descriptor. *)
Definition os_write (fd : Z) (data : bytes) : M World unit :=
  syscall ;;
  f <- file_of fd ;;
  modify (set_disk (append_file f data)).

(** *** Stream objects *)

(** Allocating a stream object on the heap returns a fresh reference. *)
Definition new_obj (o : stream) : M World nat :=
  n <- gets (λ w, length (objs w)) ;;
  modify (set_objs (λ l, l ++ [o])) ;;
  ret n.

(** Dereferencing; a reference held by the program always points into the
    heap, the other case is there for totality only. *)
Definition obj_get (r : nat) : M World stream :=
  l <- gets objs ;;
  match l !! r with
  | Some o => ret o
  | None => raise RuntimeError
  end.

Definition set_pending (p : bytes) (f : fileobj) : fileobj :=
  FileObj (fileno f) (closefd f) (buffered f) (closed f) p.

Definition mark_closed (o : stream) : stream :=
  match o with
  | OfFile f => OfFile (FileObj (fileno f) (closefd f) (buffered f) true (pending f))
  | StringIO s _ => StringIO s true
  end.

Definition obj_set (r : nat) (o : stream) : M World unit :=
  modify (set_objs (<[r := o]>)).

Definition obj_alter (g : stream → stream) (r : nat) : M World unit :=
  modify (set_objs (alter g r)).

(** [f.flush()]: pending bytes go to the descriptor; nothing to write means
    no system call; a closed object raises [ValueError]. *)
Definition io_flush (r : nat) : M World unit :=
  o <- obj_get r ;;
  match o with
  | StringIO _ c => if c then raise ValueError else ret ()
  | OfFile f =>
      if closed f then raise ValueError
      else match pending f with
           | [] => ret ()
           | _ :: _ =>
               os_write (fileno f) (pending f) ;;
               obj_set r (OfFile (set_pending [] f))
           end
  end.

(** [f.close()]: no-op when closed already; otherwise flush, and whether
    or not the flush raised, mark the object closed and close the
    descriptor when the object owns it. *)
Definition io_close (r : nat) : M World unit :=
  o <- obj_get r ;;
  match o with
  | StringIO _ _ => obj_alter mark_closed r
  | OfFile f =>
      if closed f then ret ()
      else finally (io_flush r)
             (obj_alter mark_closed r ;;
              if closefd f then os_close (fileno f) else ret ())
  end.

(** [f.fileno()]. *)
Definition io_fileno (r : nat) : M World Z :=
  o <- obj_get r ;;
  match o with
  | StringIO _ _ => raise UnsupportedOperation
  | OfFile f => if closed f then raise ValueError else ret (fileno f)
  end.

(** [f.buffer.write(data)]: what [f.write(text)] does once the text is
    encoded.  A buffered object keeps the bytes until a flush. *)
Definition io_write (r : nat) (data : bytes) : M World unit :=
  o <- obj_get r ;;
  match o with
  | StringIO _ _ => raise AttributeError
  | OfFile f =>
      if closed f then raise ValueError
      else if buffered f
           then obj_set r (OfFile (set_pending (pending f ++ data) f))
           else os_write (fileno f) data
  end.

(** [f.seek(0)]: flushes what the object still holds, then repositions. *)
Definition io_seek0 (r : nat) : M World unit :=
  io_flush r ;;
  fd <- io_fileno r ;;
  syscall ;;
  _ <- file_of fd ;;
  ret ().

(** [f.read()] after [f.seek(0)]: everything the file holds. *)
Definition io_read (r : nat) : M World bytes :=
  fd <- io_fileno r ;;
  syscall ;;
  f <- file_of fd ;;
  d <- gets disk ;;
  ret (default [] (d !! f)).

(** Splitting at line feeds, each line keeping its terminator, as
    [readlines] of a binary file does. *)
Fixpoint splitlines (bs : bytes) : list bytes :=
  match bs with
  | [] => []
  | b :: r =>
      if b =? 10 then [b] :: splitlines r
      else match splitlines r with
           | [] => [[b]]
           | l :: ls => (b :: l) :: ls
           end
  end.

(** [f.readlines()] after [f.seek(0)]. *)
Definition io_readlines (r : nat) : M World (list bytes) :=
  bs <- io_read r ;;
  ret (splitlines bs).

(** [open(os.devnull, mode="wb")] and [tempfile.TemporaryFile("w+b")]: a
    new descriptor, the lowest unused one, and a buffered object that owns
    it. *)
Definition open_on (f : file) : M World nat :=
  t <- gets fds ;;
  let n := lowest_unused t in
  modify (set_fds (insert n f)) ;;
  new_obj (OfFile (FileObj n true true false [])).

Definition open_devnull : M World nat :=
  syscall ;;
  open_on DevNull.

Definition TemporaryFile : M World nat :=
  syscall ;;
  t <- gets next_temp ;;
  modify (set_next_temp (S t)) ;;
  modify (set_disk (insert (Temp t) [])) ;;
  open_on (Temp t).

(** Reading [sys.stdout] and friends for a method call: calling a method of
    [None] raises [AttributeError]. *)
Definition the_stream (get : World → option nat) : M World nat :=
  r <- gets get ;;
  match r with
  | Some n => ret n
  | None => raise AttributeError
  end.

(** *** Strict UTF-8 *)

Definition is_cont (b : Z) : bool := (128 <=? b) && (b <=? 191).

(** [bytes.decode("utf-8")]: [None] stands for [UnicodeDecodeError].
    Overlong forms, surrogates and code points above U+10FFFF are
    rejected, as are stray and missing continuation bytes. *)
Fixpoint utf8_decode (bs : bytes) : option text :=
  match bs with
  | [] => Some []
  | b0 :: r0 =>
      if (0 <=? b0) && (b0 <? 128) then cons b0 <$> utf8_decode r0
      else if (194 <=? b0) && (b0 <=? 223) then
        match r0 with
        | b1 :: r1 =>
            if is_cont b1
            then cons (Z.lor (Z.shiftl (Z.land b0 31) 6) (Z.land b1 63))
                   <$> utf8_decode r1
            else None
        | _ => None
        end
      else if (224 <=? b0) && (b0 <=? 239) then
        match r0 with
        | b1 :: b2 :: r2 =>
            let c := Z.lor (Z.shiftl (Z.land b0 15) 12)
                       (Z.lor (Z.shiftl (Z.land b1 63) 6) (Z.land b2 63)) in
            if is_cont b1 && is_cont b2 && (2048 <=? c)
               && negb ((55296 <=? c) && (c <=? 57343))
            then cons c <$> utf8_decode r2
            else None
        | _ => None
        end
      else if (240 <=? b0) && (b0 <=? 244) then
        match r0 with
        | b1 :: b2 :: b3 :: r3 =>
            let c := Z.lor (Z.shiftl (Z.land b0 7) 18)
                       (Z.lor (Z.shiftl (Z.land b1 63) 12)
                          (Z.lor (Z.shiftl (Z.land b2 63) 6) (Z.land b3 63))) in
            if is_cont b1 && is_cont b2 && is_cont b3
               && (65536 <=? c) && (c <=? 1114111)
            then cons c <$> utf8_decode r3
            else None
        | _ => None
        end
      else None
  end.

(** ** The capture session *)

(** The attributes of a [CaptureManager].  A stream object is held by
    reference.  [_new_stdout_fd] and [_new_stderr_fd] are not set by
    [__init__]: [None] stands for "the attribute does not exist yet". *)
Record CaptureManager : Type := mkCaptureManager {
  _temp_file : option nat;
  _capture : Capture;
  _devnull : option nat;
  _stdin : option string;
  _saved_stderr : option nat;
  _saved_stdout : option nat;
  _saved_stdin : option nat;
  _stdout_fd : Z;
  _stderr_fd : Z;
  _saved_stdout_fd : Z;
  _saved_stderr_fd : Z;
  _output : option text;
  _new_stdout_fd : option Z;
  _new_stderr_fd : option Z;
}.

Definition set_temp_file (v : option nat) (c : CaptureManager) : CaptureManager :=
  mkCaptureManager v (_capture c) (_devnull c) (_stdin c) (_saved_stderr c)
    (_saved_stdout c) (_saved_stdin c) (_stdout_fd c) (_stderr_fd c)
    (_saved_stdout_fd c) (_saved_stderr_fd c) (_output c) (_new_stdout_fd c)
    (_new_stderr_fd c).
Definition set_devnull (v : option nat) (c : CaptureManager) : CaptureManager :=
  mkCaptureManager (_temp_file c) (_capture c) v (_stdin c)
    (_saved_stderr c) (_saved_stdout c) (_saved_stdin c) (_stdout_fd c)
    (_stderr_fd c) (_saved_stdout_fd c) (_saved_stderr_fd c) (_output c)
    (_new_stdout_fd c) (_new_stderr_fd c).
Definition set_saved_stderr (v : option nat) (c : CaptureManager) : CaptureManager :=
  mkCaptureManager (_temp_file c) (_capture c) (_devnull c) (_stdin c) v
    (_saved_stdout c) (_saved_stdin c) (_stdout_fd c) (_stderr_fd c)
    (_saved_stdout_fd c) (_saved_stderr_fd c) (_output c) (_new_stdout_fd c)
    (_new_stderr_fd c).
Definition set_saved_stdout (v : option nat) (c : CaptureManager) : CaptureManager :=
  mkCaptureManager (_temp_file c) (_capture c) (_devnull c) (_stdin c)
    (_saved_stderr c) v (_saved_stdin c) (_stdout_fd c) (_stderr_fd c)
    (_saved_stdout_fd c) (_saved_stderr_fd c) (_output c) (_new_stdout_fd c)
    (_new_stderr_fd c).
Definition set_saved_stdin (v : option nat) (c : CaptureManager) : CaptureManager :=
  mkCaptureManager (_temp_file c) (_capture c) (_devnull c) (_stdin c)
    (_saved_stderr c) (_saved_stdout c) v (_stdout_fd c) (_stderr_fd c)
    (_saved_stdout_fd c) (_saved_stderr_fd c) (_output c) (_new_stdout_fd c)
    (_new_stderr_fd c).
Definition set_stdout_fd (v : Z) (c : CaptureManager) : CaptureManager :=
  mkCaptureManager (_temp_file c) (_capture c) (_devnull c) (_stdin c)
    (_saved_stderr c) (_saved_stdout c) (_saved_stdin c) v (_stderr_fd c)
    (_saved_stdout_fd c) (_saved_stderr_fd c) (_output c) (_new_stdout_fd c)
    (_new_stderr_fd c).
Definition set_stderr_fd (v : Z) (c : CaptureManager) : CaptureManager :=
  mkCaptureManager (_temp_file c) (_capture c) (_devnull c) (_stdin c)
    (_saved_stderr c) (_saved_stdout c) (_saved_stdin c) (_stdout_fd c) v
    (_saved_stdout_fd c) (_saved_stderr_fd c) (_output c) (_new_stdout_fd c)
    (_new_stderr_fd c).
Definition set_output (v : option text) (c : CaptureManager) : CaptureManager :=
  mkCaptureManager (_temp_file c) (_capture c) (_devnull c) (_stdin c)
    (_saved_stderr c) (_saved_stdout c) (_saved_stdin c) (_stdout_fd c)
    (_stderr_fd c) (_saved_stdout_fd c) (_saved_stderr_fd c) v
    (_new_stdout_fd c) (_new_stderr_fd c).
Definition set_new_stdout_fd (v : option Z) (c : CaptureManager) : CaptureManager :=
  mkCaptureManager (_temp_file c) (_capture c) (_devnull c) (_stdin c)
    (_saved_stderr c) (_saved_stdout c) (_saved_stdin c) (_stdout_fd c)
    (_stderr_fd c) (_saved_stdout_fd c) (_saved_stderr_fd c) (_output c) v
    (_new_stderr_fd c).
Definition set_new_stderr_fd (v : option Z) (c : CaptureManager) : CaptureManager :=
  mkCaptureManager (_temp_file c) (_capture c) (_devnull c) (_stdin c)
    (_saved_stderr c) (_saved_stdout c) (_saved_stdin c) (_stdout_fd c)
    (_stderr_fd c) (_saved_stdout_fd c) (_saved_stderr_fd c) (_output c)
    (_new_stdout_fd c) v.

(** The methods run on the manager and the process together. *)
Definition State : Type := CaptureManager * World.

Definition proc {A : Type} (m : M World A) : M State A :=
  λ s, match m (snd s) with
       | (w', r) => ((fst s, w'), r)
       end.

Definition attr {A : Type} (f : CaptureManager → A) : M State A :=
  gets (λ s, f (fst s)).

Definition assign (f : CaptureManager → CaptureManager) : M State unit :=
  modify (λ s, (f (fst s), snd s)).

(** Reading an attribute that may not exist yet. *)
Definition attr_opt {A : Type} (f : CaptureManager → option A) : M State A :=
  v <- attr f ;;
  match v with
  | Some a => ret a
  | None => raise AttributeError
  end.

(** [CaptureManager.__init__], lines 101-119. *)
Definition __init__ (capture : Capture) (stdin : option string)
  : M World CaptureManager :=
  ret (mkCaptureManager None capture None stdin None None None
         (-1) (-1) (-1) (-1) None None None).

Section Platform.

(** [WINDOWS], line 17, is fixed by the interpreter's platform. *)
Variable WINDOWS : bool.

(** [line.decode(os.device_encoding(0))]: [None] when descriptor 0 is not a
    console, so that [os.device_encoding] returns [None] and [decode]
    raises [TypeError]; otherwise the decoder of the console's code page,
    whose own failure is a [UnicodeDecodeError]. *)
Variable device_decode : option (bytes → option text).

(** [_reopen_stdio], lines 245-259.  [os.fdopen] checks the descriptor and
    returns an object that owns it; without buffering the new object
    writes through. *)
Definition _reopen_stdio (f : nat) (mode : string) : M World nat :=
  o <- obj_get f ;;
  match o with
  | StringIO _ _ => raise AttributeError
  | OfFile fo =>
      let buffering :=
        if negb (buffered fo)
           && match mode with
              | String a _ => Ascii.eqb a "w"%char
              | EmptyString => false
              end
        then 0 else -1 in
      fd <- io_fileno f ;;
      syscall ;;
      _ <- file_of fd ;;
      new_obj (OfFile (FileObj fd true (negb (buffering =? 0)) false []))
  end.

(** [CaptureManager.__enter__], lines 121-175. *)
Definition __enter__ : M State unit :=
  capture <- attr _capture ;;
  if decide (capture = NONE) then ret ()
  else
    (* Flush library buffers that dup2 knows nothing about. *)
    out <- proc (the_stream sys_stdout) ;;
    proc (io_flush out) ;;
    err <- proc (the_stream sys_stderr) ;;
    proc (io_flush err) ;;
    (* Patch sys.stdin if needed. *)
    stdin <- attr _stdin ;;
    match stdin with
    | Some content =>
        cur <- proc (gets sys_stdin) ;;
        assign (set_saved_stdin cur) ;;
        new <- proc (new_obj (StringIO content false)) ;;
        proc (modify (set_sys_stdin (Some new)))
    | None => ret ()
    end ;;
    (* Open devnull if needed. *)
    (if decide (capture ∈ [STDOUT; STDERR])
     then d <- proc open_devnull ;; assign (set_devnull (Some d))
     else ret ()) ;;
    (* Create temporary file. *)
    tf <- proc TemporaryFile ;;
    assign (set_temp_file (Some tf)) ;;
    fdw <- proc (io_fileno tf) ;;
    (* Save current stdout. *)
    cur_out <- proc (gets sys_stdout) ;;
    assign (set_saved_stdout cur_out) ;;
    (* Redirect stdout to temporary file or devnull. *)
    out <- proc (the_stream sys_stdout) ;;
    stdout_fd <- proc (io_fileno out) ;;
    assign (set_stdout_fd stdout_fd) ;;
    new_stdout_fd <- proc (os_dup stdout_fd) ;;
    assign (set_new_stdout_fd (Some new_stdout_fd)) ;;
    (if decide (capture ∈ [BOTH; STDOUT]) then
       proc (os_dup2 fdw stdout_fd) ;;
       if WINDOWS then
         out <- proc (the_stream sys_stdout) ;;
         new <- proc (_reopen_stdio out "wb") ;;
         proc (modify (set_sys_stdout (Some new)))
       else ret ()
     else if decide (capture = STDERR) then
       d <- attr_opt _devnull ;;
       dfd <- proc (io_fileno d) ;;
       proc (os_dup2 dfd stdout_fd) ;;
       if WINDOWS then
         out <- proc (the_stream sys_stdout) ;;
         new <- proc (_reopen_stdio out "wb") ;;
         proc (modify (set_sys_stdout (Some new)))
       else ret ()
     else ret ()) ;;
    (* Save current stderr. *)
    cur_err <- proc (gets sys_stderr) ;;
    assign (set_saved_stderr cur_err) ;;
    (* Redirect stderr to temporary file or devnull. *)
    err <- proc (the_stream sys_stderr) ;;
    stderr_fd <- proc (io_fileno err) ;;
    assign (set_stderr_fd stderr_fd) ;;
    new_stderr_fd <- proc (os_dup stderr_fd) ;;
    assign (set_new_stderr_fd (Some new_stderr_fd)) ;;
    (if decide (capture ∈ [BOTH; STDERR]) then
       proc (os_dup2 fdw stderr_fd) ;;
       if WINDOWS then
         err <- proc (the_stream sys_stderr) ;;
         new <- proc (_reopen_stdio err "wb") ;;
         proc (modify (set_sys_stderr (Some new)))
       else ret ()
     else if decide (capture = STDOUT) then
       d <- attr_opt _devnull ;;
       dfd <- proc (io_fileno d) ;;
       proc (os_dup2 dfd stderr_fd) ;;
       if WINDOWS then
         err <- proc (the_stream sys_stderr) ;;
         new <- proc (_reopen_stdio err "wb") ;;
         proc (modify (set_sys_stderr (Some new)))
       else ret ()
     else ret ()) ;;
    ret ().

(** One line of the Windows branch, lines 220-223. *)
Definition decode_line (line : bytes) : result text :=
  match utf8_decode line with
  | Some ln => Ok ln
  | None =>
      match device_decode with
      | None => Raise TypeError
      | Some dec =>
          match dec line with
          | Some ln => Ok ln
          | None => Raise UnicodeDecodeError
          end
      end
  end.

(** Lifting a pure outcome into a computation. *)
Definition of_result {S A : Type} (r : result A) : M S A := λ s, (s, r).

(** The decoding of lines 215-227, given the rewound temporary file. *)
Definition decode_temp_file (tf : nat) : M World text :=
  if WINDOWS then
    lines <- io_readlines tf ;;
    clean_decoded <- mapM (λ line, of_result (decode_line line)) lines ;;
    ret (concat clean_decoded)
  else
    data <- io_read tf ;;
    match utf8_decode data with
    | Some t => ret t
    | None => raise UnicodeDecodeError
    end.

(** [CaptureManager.__exit__], lines 177-228.  It returns [None], so an
    exception of the block is never swallowed. *)
Definition __exit__ : M State unit :=
  capture <- attr _capture ;;
  if decide (capture = NONE) then
    out <- proc (the_stream sys_stdout) ;;
    proc (io_flush out) ;;
    err <- proc (the_stream sys_stderr) ;;
    proc (io_flush err)
  else
    (* Restore stdin to its previous value. *)
    saved_stdin <- attr _saved_stdin ;;
    match saved_stdin with
    | Some r => proc (modify (set_sys_stdin (Some r)))
    | None => ret ()
    end ;;
    (* Close devnull if needed. *)
    devnull <- attr _devnull ;;
    match devnull with
    | Some d => proc (io_close d)
    | None => ret ()
    end ;;
    (* Flush everything before reading from temp file. *)
    out <- proc (the_stream sys_stdout) ;;
    proc (io_flush out) ;;
    out <- proc (the_stream sys_stdout) ;;
    proc (io_close out) ;;
    err <- proc (the_stream sys_stderr) ;;
    proc (io_flush err) ;;
    err <- proc (the_stream sys_stderr) ;;
    proc (io_close err) ;;
    (* Restore stdout and stderr to their previous values. *)
    new_stdout_fd <- attr_opt _new_stdout_fd ;;
    stdout_fd <- attr _stdout_fd ;;
    proc (os_dup2 new_stdout_fd stdout_fd) ;;
    new_stderr_fd <- attr_opt _new_stderr_fd ;;
    stderr_fd <- attr _stderr_fd ;;
    proc (os_dup2 new_stderr_fd stderr_fd) ;;
    saved_stdout <- attr _saved_stdout ;;
    match saved_stdout with
    | Some r => proc (modify (set_sys_stdout (Some r)))
    | None => ret ()
    end ;;
    saved_stderr <- attr _saved_stderr ;;
    match saved_stderr with
    | Some r => proc (modify (set_sys_stderr (Some r)))
    | None => ret ()
    end ;;
    (* Read contents from temporary file, close it. *)
    temp_file <- attr _temp_file ;;
    match temp_file with
    | Some tf =>
        proc (io_seek0 tf) ;;
        decoded <- proc (decode_temp_file tf) ;;
        assign (set_output (Some decoded)) ;;
        proc (io_close tf)
    | None => ret ()
    end.

(** The [with] statement: [__exit__] runs when [__enter__] returned, however
    the block ends; it does not run when [__enter__] raised. *)
Definition with_ {A : Type} (block : M State A) : M State A :=
  __enter__ ;;
  finally block __exit__.

(** [Capture.here], lines 53-78: the generator builds the manager, enters
    it, hands it to the caller's block at [yield], and leaves it when the
    block is over.  The final manager is kept in the state, for the caller
    to read. *)
Definition here {A : Type} (self : Capture) (stdin : option string)
  (block : M State A) : World → State * result A :=
  λ w, match __init__ self stdin w with
       | (w', Ok captured) => with_ block (captured, w')
       | (w', Raise e) =>
           ((mkCaptureManager None self None stdin None None None
               (-1) (-1) (-1) (-1) None None None, w'), Raise e)
       end.

End Platform.

(** [CaptureManager.output], lines 233-242. *)
Definition output (self : CaptureManager) : result (option text) :=
  if decide (_output self = None ∧ _capture self ≠ NONE)
  then Raise RuntimeError
  else Ok (_output self).

(** [CaptureManager.__str__], lines 230-231; [str()] rejects a result that
    is not a string with [TypeError]. *)
Definition __str__ (self : CaptureManager) : result text :=
  match output self with
  | Ok (Some s) => Ok s
  | Ok None => Raise TypeError
  | Raise e => Raise e
  end.

(** ** What a block does to the streams *)

Inductive std : Set := Out | Err.

Inductive action : Set :=
| OsWrite (fd : Z) (data : bytes)    (* a write on a descriptor *)
| PyWrite (s : std) (data : bytes)   (* sys.stdout.buffer.write(data) *)
| PyFlush (s : std).                 (* sys.stdout.flush() *)

Definition sys_of (s : std) : World → option nat :=
  match s with
  | Out => sys_stdout
  | Err => sys_stderr
  end.

Definition run_action (a : action) : M World unit :=
  match a with
  | OsWrite fd data => os_write fd data
  | PyWrite s data => r <- the_stream (sys_of s) ;; io_write r data
  | PyFlush s => r <- the_stream (sys_of s) ;; io_flush r
  end.

Fixpoint run_block (acts : list action) : M World unit :=
  match acts with
  | [] => ret ()
  | a :: r => run_action a ;; run_block r
  end.

(** ** Reference points *)

(** The claim of the specification about a session that captures nothing:
    "flush current stdout/stderr and do nothing else".  It is what
    [__exit__] does for such a session. *)
Definition flush_std_streams : M World unit :=
  out <- the_stream sys_stdout ;;
  io_flush out ;;
  err <- the_stream sys_stderr ;;
  io_flush err.

(** An interpreter's own standard stream: buffered, not owning its
    descriptor. *)
Definition std_obj (fd : Z) (held : bytes) : stream :=
  OfFile (FileObj fd false true false held).

(** A freshly started process: descriptors 0, 1, 2 on three destinations,
    the three stream objects of the interpreter, with [out] still held in
    the buffer of [sys.stdout]; no fault scheduled. *)
Definition process (out : bytes) : World :=
  mkWorld (<[2 := Dest 2]> (<[1 := Dest 1]> (<[0 := Dest 0]> ∅))) ∅
    [std_obj 0 []; std_obj 1 out; std_obj 2 []]
    (Some 0%nat) (Some 1%nat) (Some 2%nat) 0 None.

(** The manager [__init__] builds. *)
Definition fresh_manager (capture : Capture) (stdin : option string)
  : CaptureManager :=
  mkCaptureManager None capture None stdin None None None
    (-1) (-1) (-1) (-1) None None None.

(** [n] capture scopes one after the other, each with the same block. *)
Fixpoint scopes (WINDOWS : bool) (dd : option (bytes → option text))
  (capture : Capture) (block : M State unit) (n : nat) (w : World)
  : World * result unit :=
  match n with
  | O => (w, Ok ())
  | S n' =>
      match here WINDOWS dd capture None block w with
      | (s, Ok _) => scopes WINDOWS dd capture block n' (snd s)
      | (s, Raise e) => (snd s, Raise e)
      end
  end.

(** ** The run of a scope, in closed form *)

(** [m], started in [s], ends in [s'] with outcome [r]. *)
Definition yields {S A : Type} (m : M S A) (s s' : S) (r : result A) : Prop :=
  m s = (s', r).

Definition flushed (g : file) (p : bytes) (d : gmap file bytes)
  : gmap file bytes :=
  match p with
  | [] => d
  | _ :: _ => append_file g p d
  end.

Definition is_Ok {A : Type} (r : result A) : Prop :=
  match r with Ok _ => True | Raise _ => False end.

Definition closed_obj (f : fileobj) : stream :=
  OfFile (FileObj (fileno f) (closefd f) (buffered f) true []).

Record standard (w : World) (o e : nat) (fo fe : fileobj) (go ge : file)
  : Prop := {
  std_stdout : sys_stdout w = Some o;
  std_stderr : sys_stderr w = Some e;
  std_out_obj : objs w !! o = Some (OfFile fo);
  std_err_obj : objs w !! e = Some (OfFile fe);
  std_out_open : closed fo = false;
  std_err_open : closed fe = false;
  std_out_fd : fds w !! fileno fo = Some go;
  std_err_fd : fds w !! fileno fe = Some ge;
  std_fd_ne : fileno fo ≠ fileno fe;
  std_out_nonneg : 0 ≤ fileno fo;
  std_err_nonneg : 0 ≤ fileno fe;
  std_no_fault : faults w = None;
  std_temp_fresh : ∀ fd n, fds w !! fd = Some (Temp n) → (n < next_temp w)%nat;
}.

(** Whether mode [c] captures stream [s], and where the descriptor of [s]
    points during the scope: at the temporary file [k] or at the discard
    device. *)
Definition captures (c : Capture) (s : std) : bool :=
  match c, s with
  | BOTH, _ | STDOUT, Out | STDERR, Err => true
  | _, _ => false
  end.

Definition target (c : Capture) (s : std) (k : nat) : file :=
  if captures c s then Temp k else DevNull.

Definition keep (c : Capture) (s : std) (data : bytes) : bytes :=
  if captures c s then data else [].

(** What a block has produced so far: the bytes in the temporary file and
    the bytes still held by the two stream objects. *)
Record tape : Set := Tape {
  in_file : bytes;
  held_out : bytes;
  held_err : bytes;
}.

(** The effect of one action in mode [c]; [bo] and [be] tell whether the
    stream objects buffer, [fd_o] is the descriptor of stdout, any other
    descriptor written is that of stderr. *)
Definition feed (c : Capture) (bo be : bool) (fd_o : Z) (st : tape)
  (a : action) : tape :=
  match a with
  | OsWrite fd data =>
      if decide (fd = fd_o)
      then Tape (in_file st ++ keep c Out data) (held_out st) (held_err st)
      else Tape (in_file st ++ keep c Err data) (held_out st) (held_err st)
  | PyWrite Out data =>
      if bo
      then Tape (in_file st) (held_out st ++ data) (held_err st)
      else Tape (in_file st ++ keep c Out data) (held_out st) (held_err st)
  | PyWrite Err data =>
      if be
      then Tape (in_file st) (held_out st) (held_err st ++ data)
      else Tape (in_file st ++ keep c Err data) (held_out st) (held_err st)
  | PyFlush Out =>
      Tape (in_file st ++ keep c Out (held_out st)) [] (held_err st)
  | PyFlush Err =>
      Tape (in_file st ++ keep c Err (held_err st)) (held_out st) []
  end.

(** The bytes in the temporary file when [__exit__] reads it: what the
    block fed, then what the flush of stdout and the flush of stderr
    add. *)
Definition captured (c : Capture) (bo be : bool) (fd_o : Z)
  (acts : list action) : bytes :=
  let st := fold_left (feed c bo be fd_o) acts (Tape [] [] []) in
  in_file st ++ keep c Out (held_out st) ++ keep c Err (held_err st).

(** The decoding of lines 215-227 as a function of the bytes read. *)
Fixpoint decode_lines (dd : option (bytes → option text))
  (lines : list bytes) : result (list text) :=
  match lines with
  | [] => Ok []
  | line :: rest =>
      match decode_line dd line with
      | Ok ln =>
          match decode_lines dd rest with
          | Ok lns => Ok (ln :: lns)
          | Raise e => Raise e
          end
      | Raise e => Raise e
      end
  end.

Definition decode_bytes (WINDOWS : bool) (dd : option (bytes → option text))
  (data : bytes) : result text :=
  if WINDOWS then
    match decode_lines dd (splitlines data) with
    | Ok lns => Ok (concat lns)
    | Raise e => Raise e
    end
  else
    match utf8_decode data with
    | Some t => Ok t
    | None => Raise UnicodeDecodeError
    end.

(** A block that writes on the two standard descriptors only. *)
Definition on_std (fd_o fd_e : Z) (a : action) : Prop :=
  match a with
  | OsWrite fd _ => fd = fd_o ∨ fd = fd_e
  | _ => True
  end.

(** The process inside a scope, as a function of the tape. *)
Definition scope_world (w : World) (o e : nat) (fo fe : fileobj) (k : nat)
  (st : tape) : World :=
  set_objs (λ O, <[e := OfFile (set_pending (held_err st) fe)]>
                   (<[o := OfFile (set_pending (held_out st) fo)]> O))
    (set_disk (<[Temp k := in_file st]>) w).

(** What a block relies on in mode [c], with the temporary file [k] and
    the stream objects [o] and [e]; none of it changes during the block. *)
Definition scope_frame (c : Capture) (k : nat) (o e : nat)
  (fo fe : fileobj) (w : World) : Prop :=
  sys_stdout w = Some o ∧ sys_stderr w = Some e
  ∧ (o < length (objs w))%nat ∧ (e < length (objs w))%nat
  ∧ fds w !! fileno fo = Some (target c Out k)
  ∧ fds w !! fileno fe = Some (target c Err k)
  ∧ faults w = None.

(** The stream an action of a block concerns, [fd_o] being the descriptor
    of stdout. *)
Definition stream_of (fd_o : Z) (a : action) : std :=
  match a with
  | OsWrite fd _ => if decide (fd = fd_o) then Out else Err
  | PyWrite s _ | PyFlush s => s
  end.

Definition std_eqb (s t : std) : bool :=
  match s, t with
  | Out, Out | Err, Err => true
  | _, _ => false
  end.

(** The actions of a block that do not concern stream [s]. *)
Definition without (fd_o : Z) (s : std) (acts : list action) : list action :=
  filter (λ a, std_eqb (stream_of fd_o a) s = false) acts.

(** A console codec that decodes every byte string, each byte to the code
    point of the same number. *)
Definition latin1 (line : bytes) : option text := Some line.


(** Two tapes that differ at most in what the object of stream [s]
    holds. *)
Definition same_but (s : std) (st st' : tape) : Prop :=
  in_file st = in_file st'
  ∧ match s with
    | Out => held_err st = held_err st'
    | Err => held_out st = held_out st'
    end.

(** ** Further reference points *)

(** What a scope must hand back: the descriptor table and the three
    stream references of [sys]. *)
Definition handles (w : World)
  : gmap Z file * option nat * option nat * option nat :=
  (fds w, sys_stdin w, sys_stdout w, sys_stderr w).

(** A computation on the process that leaves the handles alone, whatever
    its outcome. *)
Definition keeps_handles {A : Type} (m : M World A) : Prop :=
  ∀ w, handles (fst (m w)) = handles w.

(** The bytes one action of a block contributes to the capture when it
    reaches its descriptor at once. *)
Definition written (c : Capture) (fd_o : Z) (a : action) : bytes :=
  match a with
  | OsWrite _ data | PyWrite _ data => keep c (stream_of fd_o a) data
  | PyFlush _ => []
  end.

(** An action that does not wait in a stream object: any write on a
    descriptor, any flush, and a write through an object that does not
    buffer. *)
Definition direct (bo be : bool) (a : action) : Prop :=
  match a with
  | PyWrite Out _ => bo = false
  | PyWrite Err _ => be = false
  | _ => True
  end.




(** A line with [p] put in front of the first line; [p] holds no line
    feed. *)
Definition glue_all (p : bytes) (ls : list bytes) : list bytes :=
  match ls with
  | [] => [p]
  | l :: ls' => (p ++ l) :: ls'
  end.

(** The descriptor the temporary file gets in mode [c] when the table is
    [t] at activation: the lowest unused one, after the one of the discard
    device when that is opened. *)
Definition temp_fd (c : Capture) (t : gmap Z file) : Z :=
  match c with
  | BOTH | NONE => lowest_unused t
  | STDOUT | STDERR => lowest_unused (<[lowest_unused t := DevNull]> t)
  end.

(** The object of a standard stream as a capturing scope leaves it:
    nothing pending; closed, except on Windows, where the scope worked on
    a reopened object and closed that one. *)
Definition left_obj (WINDOWS : bool) (f : fileobj) : stream :=
  OfFile (FileObj (fileno f) (closefd f) (buffered f) (negb WINDOWS) []).

(** * Properties *)

(** ** Normalisation *)

Lemma Capture_call_value (c : Capture) : Capture_call (value c) = Ok c.
Proof. destruct c; reflexivity. Qed.

Lemma Capture_call_other (s : string) :
  (∀ c, s ≠ value c) → Capture_call s = Raise ValueError.
Proof.
  intros Hs. unfold Capture_call, members. simpl.
  repeat match goal with
         | |- context [String.eqb s ?v] =>
             destruct (String.eqb_spec s v) as [->|_]
         end;
    try reflexivity.
  - exfalso. apply (Hs STDOUT). reflexivity.
  - exfalso. apply (Hs STDERR). reflexivity.
  - exfalso. apply (Hs BOTH). reflexivity.
  - exfalso. apply (Hs NONE). reflexivity.
Qed.

(** C4: [cast] maps an absent value and [True] to [BOTH], [False] to
    [NONE], a mode to itself, the text of a mode to that mode, and raises
    [ValueError] on every other text. *)
Theorem cast_spec :
  cast ArgNone = Ok BOTH
  ∧ cast (ArgBool true) = Ok BOTH
  ∧ cast (ArgBool false) = Ok NONE
  ∧ (∀ c, cast (ArgCapture c) = Ok c)
  ∧ (∀ c, cast (ArgStr (value c)) = Ok c)
  ∧ (∀ s, (∀ c, s ≠ value c) → cast (ArgStr s) = Raise ValueError).
Proof.
  repeat split; try reflexivity.
  - intros c. apply Capture_call_value.
  - intros s Hs. simpl. apply Capture_call_other, Hs.
Qed.

Lemma cast_spec_witness : cast (ArgStr "loud") = Raise ValueError.
Proof.
  destruct cast_spec as (_ & _ & _ & _ & _ & H).
  apply H. intros c. destruct c; discriminate.
Defined.

(** ** Construction *)

(** C10: constructing a session leaves the process exactly as it was,
    raises nothing and asks for no system call; it only sets the fields of
    the new object: the mode and the input as given, every handle and the
    captured text absent, the descriptor numbers at -1. *)
Theorem init_no_effect (capture : Capture) (stdin : option string) (w : World) :
  __init__ capture stdin w = (w, Ok (fresh_manager capture stdin))
  ∧ _capture (fresh_manager capture stdin) = capture
  ∧ _stdin (fresh_manager capture stdin) = stdin
  ∧ _temp_file (fresh_manager capture stdin) = None
  ∧ _devnull (fresh_manager capture stdin) = None
  ∧ _saved_stdin (fresh_manager capture stdin) = None
  ∧ _saved_stdout (fresh_manager capture stdin) = None
  ∧ _saved_stderr (fresh_manager capture stdin) = None
  ∧ _output (fresh_manager capture stdin) = None.
Proof. repeat split. Qed.

(** ** A session that captures nothing *)

Lemma proc_self {A : Type} (m : M World A) (s : State) :
  fst (fst (proc m s)) = fst s.
Proof. unfold proc. destruct (m (snd s)) as [w' r]. reflexivity. Qed.

Lemma enter_NONE (WINDOWS : bool) (m : CaptureManager) (w : World) :
  _capture m = NONE → __enter__ WINDOWS (m, w) = ((m, w), Ok ()).
Proof.
  intros Hm. unfold __enter__, bind, attr, gets. simpl. rewrite Hm.
  reflexivity.
Qed.

Lemma exit_NONE (WINDOWS : bool) (dd : option (bytes → option text))
  (m : CaptureManager) (w : World) :
  _capture m = NONE →
  __exit__ WINDOWS dd (m, w) = proc flush_std_streams (m, w).
Proof.
  intros Hm. unfold __exit__, flush_std_streams, bind, attr, gets, proc.
  simpl. rewrite Hm. simpl.
  destruct (the_stream sys_stdout w) as [w1 [out|e]]; simpl; [|reflexivity].
  destruct (io_flush out w1) as [w2 [[]|e]]; simpl; [|reflexivity].
  destruct (the_stream sys_stderr w2) as [w3 [err|e]]; simpl; reflexivity.
Qed.

(** C5, as the code has it: entering a session whose mode is [NONE] changes
    neither the process nor the session, and flushes nothing: no stream is
    replaced, no file or descriptor opened, no system call made. *)
Theorem enter_none_does_nothing (WINDOWS : bool) (m : CaptureManager)
  (w : World) :
  _capture m = NONE → __enter__ WINDOWS (m, w) = ((m, w), Ok ()).
Proof. apply enter_NONE. Qed.

Lemma enter_none_does_nothing_witness :
  __enter__ false (fresh_manager NONE (Some "42"), process [104; 105])
  = ((fresh_manager NONE (Some "42"), process [104; 105]), Ok ()).
Proof. apply enter_none_does_nothing. reflexivity. Defined.

(** C5, as the specification has it, fails: with two bytes held in the
    buffer of [sys.stdout], a flush would hand them to descriptor 1, and
    entering the session does not. *)
Lemma enter_none_flush_counterexample :
  let s := (fresh_manager NONE None, process [104; 105]) in
  __enter__ false s ≠ proc flush_std_streams s
  ∧ disk (snd (fst (proc flush_std_streams s))) !! Dest 1 = Some [104; 105]
  ∧ disk (snd (fst (__enter__ false s))) !! Dest 1 = None
  ∧ objs (snd (fst (__enter__ false s))) !! 1%nat
    = Some (std_obj 1 [104; 105]).
Proof.
  simpl. split; [|split; [|split]]; [|vm_compute; reflexivity..].
  intros H.
  apply (f_equal (λ r, disk (snd (fst r)) !! Dest 1)) in H.
  vm_compute in H. discriminate H.
Qed.

Lemma here_unfold {A : Type} (WINDOWS : bool)
  (dd : option (bytes → option text)) (c : Capture) (stdin : option string)
  (block : M State A) (w : World) :
  here WINDOWS dd c stdin block w
  = with_ WINDOWS dd block (fresh_manager c stdin, w).
Proof. reflexivity. Qed.

Lemma with_NONE_self (WINDOWS : bool) (dd : option (bytes → option text))
  (m : CaptureManager) (block : M World unit) (w : World) :
  _capture m = NONE →
  fst (fst (with_ WINDOWS dd (proc block) (m, w))) = m.
Proof.
  intros Hm. unfold with_, bind. rewrite enter_NONE by exact Hm.
  unfold finally.
  pose proof (proc_self block (m, w)) as Hself.
  destruct (proc block (m, w)) as [[m1 w1] r]. simpl in Hself. subst m1.
  rewrite exit_NONE by exact Hm.
  pose proof (proc_self flush_std_streams (m, w1)) as Hp.
  destruct (proc flush_std_streams (m, w1)) as [[m2 w2] [[]|e]];
    simpl in *; exact Hp.
Qed.

(** C9: for a session whose mode is [NONE], [output] returns [None] and
    does not raise, right after construction, inside the scope and after
    it, whatever the block does to the process and however the scope ends;
    [__str__] therefore hands [None] to [str()], which raises
    [TypeError]: no string comes out. *)
Theorem none_output (WINDOWS : bool) (dd : option (bytes → option text))
  (stdin : option string) (block : M World unit) (w : World) :
  let m0 := fresh_manager NONE stdin in
  let entered := fst (fst (__enter__ WINDOWS (m0, w))) in
  let left := fst (fst (here WINDOWS dd NONE stdin (proc block) w)) in
  output m0 = Ok None
  ∧ output entered = Ok None
  ∧ output left = Ok None
  ∧ __str__ left = Raise TypeError.
Proof.
  intros m0 entered left.
  assert (Hent : entered = m0).
  { unfold entered. rewrite enter_NONE; reflexivity. }
  assert (Hleft : left = m0).
  { unfold left. rewrite here_unfold. apply with_NONE_self. reflexivity. }
  rewrite Hent, Hleft. repeat split.
Qed.

(** ** Faults during activation *)



(** ** Descriptors after the scope *)

(** C1 at a concrete process: one scope in mode [BOTH] on a fresh POSIX
    process ends normally and leaves five open descriptors where there
    were three: 4 and 5, the duplicates made by [__enter__], are used by
    [__exit__] to restore 1 and 2 and are never closed.  On Windows three
    scopes in a row leave nine. *)
Theorem descriptors_leak :
  let w := process [] in
  let r := here false None BOTH None (ret ()) w in
  snd r = Ok ()
  ∧ size (fds w) = 3%nat
  ∧ size (fds (snd (fst r))) = 5%nat
  ∧ fds (snd (fst r)) !! 4 = Some (Dest 1)
  ∧ fds (snd (fst r)) !! 5 = Some (Dest 2)
  ∧ _new_stdout_fd (fst (fst r)) = Some 4
  ∧ _new_stderr_fd (fst (fst r)) = Some 5
  ∧ snd (scopes true None BOTH (ret ()) 3 w) = Ok ()
  ∧ size (fds (fst (scopes true None BOTH (ret ()) 3 w))) = 9%nat.
Proof. vm_compute. repeat split. Qed.

(** ** Descriptor allocation *)

Lemma lowest_from_spec (t : gmap Z file) (n : nat) (k : Z) :
  t !! lowest_from t n k = None
  ∨ (lowest_from t n k = k + Z.of_nat n
     ∧ ∀ j, k ≤ j < k + Z.of_nat n → is_Some (t !! j)).
Proof.
  revert k. induction n as [|n IH]; intros k; simpl.
  - right. split; [lia|]. intros j Hj. lia.
  - destruct (t !! k) as [f|] eqn:Hk; [|left; exact Hk].
    destruct (IH (k + 1)) as [Hnone|[Heq Hall]]; [left; exact Hnone|].
    right. split; [lia|].
    intros j Hj. destruct (decide (j = k)) as [->|Hne].
    + rewrite Hk. eauto.
    + apply Hall. lia.
Qed.

Lemma full_prefix_next_free (t : gmap Z file) :
  (∀ j, 0 ≤ j < Z.of_nat (size t) → is_Some (t !! j)) →
  t !! Z.of_nat (size t) = None.
Proof.
  intros Hall.
  set (X := list_to_set (seqZ 0 (Z.of_nat (size t))) : gset Z).
  assert (Hsub : X ⊆ dom t).
  { intros j Hj. apply elem_of_list_to_set, elem_of_seqZ in Hj.
    apply elem_of_dom, Hall. lia. }
  assert (Hsize : size X = size t).
  { unfold X. rewrite size_list_to_set by apply NoDup_seqZ.
    rewrite length_seqZ. lia. }
  assert (Heq : X = dom t).
  { apply set_subseteq_size_eq; [exact Hsub|]. rewrite size_dom. lia. }
  apply not_elem_of_dom. rewrite <- Heq. unfold X.
  rewrite elem_of_list_to_set, elem_of_seqZ. lia.
Qed.

Lemma lowest_unused_fresh (t : gmap Z file) : t !! lowest_unused t = None.
Proof.
  unfold lowest_unused.
  destruct (lowest_from_spec t (size t) 0) as [H|[Heq Hall]]; [exact H|].
  rewrite Heq. apply full_prefix_next_free. exact Hall.
Qed.

Lemma lowest_from_nonneg (t : gmap Z file) (n : nat) (k : Z) :
  0 ≤ k → 0 ≤ lowest_from t n k.
Proof.
  revert k. induction n as [|n IH]; intros k Hk; simpl; [exact Hk|].
  destruct (t !! k); [apply IH; lia|exact Hk].
Qed.

Lemma lowest_unused_nonneg (t : gmap Z file) : 0 ≤ lowest_unused t.
Proof. apply lowest_from_nonneg. lia. Qed.

Lemma open_ne_lowest_unused (t : gmap Z file) (fd : Z) (f : file) :
  t !! fd = Some f → fd ≠ lowest_unused t.
Proof. intros H ->. rewrite lowest_unused_fresh in H. discriminate. Qed.

(** ** Stepping through a computation *)

(** ** Stepping through a computation *)

Section Yields.
Context {S : Type}.

Lemma yields_bind {A B : Type} (m : M S A) (k : A → M S B) s s1 a s2 r :
  yields m s s1 (Ok a) → yields (k a) s1 s2 r → yields (bind m k) s s2 r.
Proof. unfold yields, bind. intros -> H. exact H. Qed.

Lemma yields_bind_raise {A B : Type} (m : M S A) (k : A → M S B) s s1 e :
  yields m s s1 (Raise e) → yields (bind m k) s s1 (Raise e).
Proof. unfold yields, bind. intros ->. reflexivity. Qed.

Lemma yields_ret {A : Type} (a : A) (s : S) : yields (ret a) s s (Ok a).
Proof. reflexivity. Qed.

Lemma yields_raise {A : Type} (e : exn) (s : S) :
  yields (raise (A := A) e) s s (Raise e).
Proof. reflexivity. Qed.

Lemma yields_gets {A : Type} (f : S → A) (s : S) :
  yields (gets f) s s (Ok (f s)).
Proof. reflexivity. Qed.

Lemma yields_modify (f : S → S) (s : S) : yields (modify f) s (f s) (Ok ()).
Proof. reflexivity. Qed.

Lemma yields_finally {A : Type} (m : M S A) (h : M S unit) s s1 r s2 :
  yields m s s1 r → yields h s1 s2 (Ok ()) → yields (finally m h) s s2 r.
Proof. unfold yields, finally. intros -> ->. reflexivity. Qed.

End Yields.

Lemma yields_to {S A : Type} (m : M S A) (s s1 s2 : S) (r : result A) :
  yields m s s1 r → s1 = s2 → yields m s s2 r.
Proof. intros H <-. exact H. Qed.

Lemma yields_proc {A : Type} (m : M World A) c w w' r :
  yields m w w' r → yields (proc m) (c, w) (c, w') r.
Proof. unfold yields, proc. simpl. intros ->. reflexivity. Qed.

Lemma yields_attr {A : Type} (f : CaptureManager → A) c w :
  yields (attr f) (c, w) (c, w) (Ok (f c)).
Proof. reflexivity. Qed.

Lemma yields_assign (f : CaptureManager → CaptureManager) c w :
  yields (assign f) (c, w) (f c, w) (Ok ()).
Proof. reflexivity. Qed.

Lemma yields_attr_opt {A : Type} (f : CaptureManager → option A) c w a :
  f c = Some a → yields (attr_opt f) (c, w) (c, w) (Ok a).
Proof. unfold yields, attr_opt, bind, attr, gets. simpl. intros ->. reflexivity. Qed.

(** *** System calls that go through *)

Lemma yields_syscall w : faults w = None → yields syscall w w (Ok ()).
Proof. unfold yields, syscall. intros ->. reflexivity. Qed.

Lemma yields_file_of w fd f :
  fds w !! fd = Some f → yields (file_of fd) w w (Ok f).
Proof. unfold yields, file_of, bind, gets. intros ->. reflexivity. Qed.

Lemma yields_os_dup w fd f :
  faults w = None → fds w !! fd = Some f →
  yields (os_dup fd) w (set_fds (insert (lowest_unused (fds w)) f) w)
    (Ok (lowest_unused (fds w))).
Proof.
  intros Hf Hfd. unfold os_dup.
  eapply yields_bind; [apply yields_syscall, Hf|].
  eapply yields_bind; [apply yields_file_of, Hfd|].
  reflexivity.
Qed.

Lemma yields_os_dup2 w fd fd2 f :
  faults w = None → fds w !! fd = Some f → 0 ≤ fd2 →
  yields (os_dup2 fd fd2) w (set_fds (insert fd2 f) w) (Ok fd2).
Proof.
  intros Hf Hfd Hpos. unfold os_dup2.
  eapply yields_bind; [apply yields_syscall, Hf|].
  eapply yields_bind; [apply yields_file_of, Hfd|].
  destruct (Z.ltb_spec fd2 0); [lia|]. reflexivity.
Qed.

Lemma yields_os_close w fd f :
  faults w = None → fds w !! fd = Some f →
  yields (os_close fd) w (set_fds (delete fd) w) (Ok ()).
Proof.
  intros Hf Hfd. unfold os_close.
  eapply yields_bind; [apply yields_syscall, Hf|].
  eapply yields_bind; [apply yields_file_of, Hfd|].
  reflexivity.
Qed.

Lemma yields_os_write w fd f data :
  faults w = None → fds w !! fd = Some f →
  yields (os_write fd data) w (set_disk (append_file f data) w) (Ok ()).
Proof.
  intros Hf Hfd. unfold os_write.
  eapply yields_bind; [apply yields_syscall, Hf|].
  eapply yields_bind; [apply yields_file_of, Hfd|].
  reflexivity.
Qed.

(** *** Stream objects *)

Lemma yields_obj_get w r o :
  objs w !! r = Some o → yields (obj_get r) w w (Ok o).
Proof. unfold yields, obj_get, bind, gets. intros ->. reflexivity. Qed.

Lemma yields_new_obj w o :
  yields (new_obj o) w (set_objs (λ l, l ++ [o]) w) (Ok (length (objs w))).
Proof. reflexivity. Qed.

Lemma yields_the_stream (get : World → option nat) w n :
  get w = Some n → yields (the_stream get) w w (Ok n).
Proof. unfold yields, the_stream, bind, gets. intros ->. reflexivity. Qed.

Lemma yields_io_fileno w r f :
  objs w !! r = Some (OfFile f) → closed f = false →
  yields (io_fileno r) w w (Ok (fileno f)).
Proof.
  intros Hr Hc. unfold io_fileno.
  eapply yields_bind; [apply yields_obj_get, Hr|].
  simpl. rewrite Hc. reflexivity.
Qed.

Lemma set_pending_id (f : fileobj) : set_pending (pending f) f = f.
Proof. destruct f. reflexivity. Qed.

Lemma yields_io_flush w r f g :
  faults w = None → objs w !! r = Some (OfFile f) → closed f = false →
  fds w !! fileno f = Some g →
  yields (io_flush r) w
    (set_objs (<[r := OfFile (set_pending [] f)]>)
       (set_disk (flushed g (pending f)) w))
    (Ok ()).
Proof.
  intros Hf Hr Hc Hfd. unfold io_flush.
  eapply yields_bind; [apply yields_obj_get, Hr|].
  simpl. rewrite Hc.
  destruct (pending f) as [|b p] eqn:Hp.
  - unfold yields, ret. destruct w. unfold set_objs, set_disk.
    simpl in *. rewrite list_insert_id; [reflexivity|].
    rewrite Hr, <- Hp, set_pending_id. reflexivity.
  - eapply yields_bind; [apply yields_os_write; eassumption|].
    reflexivity.
Qed.

Lemma list_alter_insert_eq {A : Type} (g : A → A) (l : list A) (i : nat) (x : A) :
  alter g i (<[i := x]> l) = <[i := g x]> l.
Proof.
  revert i. induction l as [|y l IH]; intros [|i]; simpl; try reflexivity.
  f_equal. apply IH.
Qed.

Lemma yields_io_close w r f g :
  faults w = None → objs w !! r = Some (OfFile f) → closed f = false →
  fds w !! fileno f = Some g →
  yields (io_close r) w
    (set_fds (if closefd f then delete (fileno f) else id)
       (set_objs (<[r := closed_obj f]>)
          (set_disk (flushed g (pending f)) w)))
    (Ok ()).
Proof.
  intros Hf Hr Hc Hfd. unfold io_close.
  eapply yields_bind; [apply yields_obj_get, Hr|].
  simpl. rewrite Hc.
  eapply yields_finally; [apply yields_io_flush; eassumption|].
  eapply yields_bind; [apply yields_modify|].
  destruct (closefd f) eqn:Hcf.
  - unfold yields.
    rewrite (yields_os_close _ _ g) by (simpl; assumption).
    f_equal. destruct w. unfold set_fds, set_objs, set_disk. simpl.
    f_equal. rewrite list_alter_insert_eq. simpl. unfold closed_obj.
    rewrite Hcf. reflexivity.
  - unfold yields, ret. f_equal. destruct w.
    unfold set_fds, set_objs, set_disk. simpl.
    f_equal. rewrite list_alter_insert_eq. simpl. unfold closed_obj.
    rewrite Hcf. reflexivity.
Qed.

Lemma yields_io_write w r f g data :
  faults w = None → objs w !! r = Some (OfFile f) → closed f = false →
  fds w !! fileno f = Some g →
  yields (io_write r data) w
    (if buffered f
     then set_objs (<[r := OfFile (set_pending (pending f ++ data) f)]>) w
     else set_disk (append_file g data) w)
    (Ok ()).
Proof.
  intros Hf Hr Hc Hfd. unfold io_write.
  eapply yields_bind; [apply yields_obj_get, Hr|].
  simpl. rewrite Hc. destruct (buffered f).
  - reflexivity.
  - apply yields_os_write; assumption.
Qed.

Lemma yields_io_seek0 w r f g :
  faults w = None → objs w !! r = Some (OfFile f) → closed f = false →
  pending f = [] → fds w !! fileno f = Some g →
  yields (io_seek0 r) w w (Ok ()).
Proof.
  intros Hf Hr Hc Hp Hfd. unfold io_seek0.
  assert (Hfl : yields (io_flush r) w w (Ok ())).
  { unfold io_flush.
    eapply yields_bind; [apply yields_obj_get, Hr|].
    simpl. rewrite Hc, Hp. reflexivity. }
  eapply yields_bind; [exact Hfl|].
  eapply yields_bind; [apply yields_io_fileno; eassumption|].
  eapply yields_bind; [apply yields_syscall, Hf|].
  eapply yields_bind; [apply yields_file_of, Hfd|].
  reflexivity.
Qed.

Lemma yields_io_read w r f g :
  faults w = None → objs w !! r = Some (OfFile f) → closed f = false →
  fds w !! fileno f = Some g →
  yields (io_read r) w w (Ok (default [] (disk w !! g))).
Proof.
  intros Hf Hr Hc Hfd. unfold io_read.
  eapply yields_bind; [apply yields_io_fileno; eassumption|].
  eapply yields_bind; [apply yields_syscall, Hf|].
  eapply yields_bind; [apply yields_file_of, Hfd|].
  reflexivity.
Qed.

Lemma yields_open_on w f :
  yields (open_on f) w
    (set_objs (λ l, l ++ [OfFile (FileObj (lowest_unused (fds w)) true true false [])])
       (set_fds (insert (lowest_unused (fds w)) f) w))
    (Ok (length (objs w))).
Proof. reflexivity. Qed.

Lemma yields_open_devnull w :
  faults w = None →
  yields open_devnull w
    (set_objs (λ l, l ++ [OfFile (FileObj (lowest_unused (fds w)) true true false [])])
       (set_fds (insert (lowest_unused (fds w)) DevNull) w))
    (Ok (length (objs w))).
Proof.
  intros Hf. unfold open_devnull.
  eapply yields_bind; [apply yields_syscall, Hf|]. reflexivity.
Qed.

Lemma yields_TemporaryFile w :
  faults w = None →
  yields TemporaryFile w
    (set_objs (λ l, l ++ [OfFile (FileObj (lowest_unused (fds w)) true true false [])])
       (set_fds (insert (lowest_unused (fds w)) (Temp (next_temp w)))
          (set_disk (insert (Temp (next_temp w)) [])
             (set_next_temp (Datatypes.S (next_temp w)) w))))
    (Ok (length (objs w))).
Proof.
  intros Hf. unfold TemporaryFile.
  eapply yields_bind; [apply yields_syscall, Hf|]. reflexivity.
Qed.

Lemma yields_reopen_stdio w r f g :
  faults w = None → objs w !! r = Some (OfFile f) → closed f = false →
  fds w !! fileno f = Some g →
  yields (_reopen_stdio r "wb") w
    (set_objs (λ l, l ++ [OfFile (FileObj (fileno f) true (buffered f) false [])]) w)
    (Ok (length (objs w))).
Proof.
  intros Hf Hr Hc Hfd. unfold _reopen_stdio.
  eapply yields_bind; [apply yields_obj_get, Hr|].
  simpl.
  eapply yields_bind; [apply yields_io_fileno; eassumption|].
  eapply yields_bind; [apply yields_syscall, Hf|].
  eapply yields_bind; [apply yields_file_of, Hfd|].
  destruct (buffered f); reflexivity.
Qed.

Lemma yields_finally_any {S A : Type} (m : M S A) (h : M S unit)
  (s s1 s2 : S) (r : result A) (r' : result unit) :
  yields m s s1 r → yields h s1 s2 r' →
  yields (finally m h) s s2
    (match r' with Ok _ => r | Raise e => Raise e end).
Proof. unfold yields, finally. intros -> ->. destruct r'; reflexivity. Qed.

Lemma yields_from {S A : Type} (m : M S A) (s s0 s' : S) (r : result A) :
  s = s0 → yields m s0 s' r → yields m s s' r.
Proof. intros ->. exact (λ H, H). Qed.

Lemma yields_res {S A : Type} (m : M S A) (s s' : S) (r r' : result A) :
  yields m s s' r → r = r' → yields m s s' r'.
Proof. intros H <-. exact H. Qed.

Lemma mapM_decode_lines (dd : option (bytes → option text))
  (lines : list bytes) (w : World) :
  mapM (λ line, of_result (decode_line dd line)) lines w
  = (w, decode_lines dd lines).
Proof.
  induction lines as [|line rest IH]; simpl; [reflexivity|].
  unfold bind at 1. unfold of_result at 1.
  destruct (decode_line dd line) as [ln|ex]; [|reflexivity].
  unfold bind. rewrite IH. destruct (decode_lines dd rest); reflexivity.
Qed.

Lemma yields_decode_temp_file W dd w r f g :
  faults w = None → objs w !! r = Some (OfFile f) → closed f = false →
  fds w !! fileno f = Some g →
  yields (decode_temp_file W dd r) w w
    (decode_bytes W dd (default [] (disk w !! g))).
Proof.
  intros Hf Hr Hc Hfd. unfold decode_temp_file, decode_bytes.
  destruct W.
  - unfold io_readlines, yields, bind.
    rewrite (yields_io_read w r f g Hf Hr Hc Hfd). unfold ret.
    rewrite mapM_decode_lines.
    destruct (decode_lines dd _); reflexivity.
  - unfold yields, bind.
    rewrite (yields_io_read w r f g Hf Hr Hc Hfd).
    destruct (utf8_decode _); reflexivity.
Qed.

Lemma flushed_Temp (k : nat) (acc p : bytes) (d : gmap file bytes) :
  flushed (Temp k) p (<[Temp k := acc]> d) = <[Temp k := acc ++ p]> d.
Proof.
  destruct p as [|b p]; simpl.
  - rewrite app_nil_r. reflexivity.
  - rewrite lookup_insert_eq. simpl. apply insert_insert_eq.
Qed.

Lemma flushed_DevNull (p : bytes) (d : gmap file bytes) :
  flushed DevNull p d = d.
Proof. destruct p; reflexivity. Qed.

Lemma yields_attr_eq {A : Type} (f : CaptureManager → A) c w a :
  f c = a → yields (attr f) (c, w) (c, w) (Ok a).
Proof. intros <-. reflexivity. Qed.

Lemma yields_gets_eq {S A : Type} (f : S → A) (s : S) a :
  f s = a → yields (gets f) s s (Ok a).
Proof. intros <-. reflexivity. Qed.

Lemma lookup_snoc_dec {A : Type} (l : list A) (x : A) (i : nat) :
  (l ++ [x]) !! i = if decide (i = length l) then Some x else l !! i.
Proof.
  destruct (decide (i = length l)) as [->|Hne].
  - apply list_lookup_middle. reflexivity.
  - destruct (decide (i < length l)%nat).
    + apply lookup_app_l. assumption.
    + rewrite !lookup_ge_None_2; [reflexivity|lia|rewrite length_app; simpl; lia].
Qed.

Lemma yields_bind_any {S A B : Type} (m : M S A) (k : A → M S B)
  (s s1 : S) (r : result A) (s2 : A → S) (r2 : A → result B) :
  yields m s s1 r → (∀ a, yields (k a) s1 (s2 a) (r2 a)) →
  yields (bind m k) s
    (match r with Ok a => s2 a | Raise _ => s1 end)
    (match r with Ok a => r2 a | Raise e => Raise e end).
Proof.
  unfold yields, bind. intros -> Hk. destruct r as [a|e]; [apply Hk|reflexivity].
Qed.

(** The two places where the code tests an optional stream. *)
Lemma enter_stdin_step (stdin : option string) (m : CaptureManager)
  (w : World) :
  yields
    (match stdin with
     | Some content =>
         cur <- proc (gets sys_stdin) ;;
         assign (set_saved_stdin cur) ;;
         new <- proc (new_obj (StringIO content false)) ;;
         proc (modify (set_sys_stdin (Some new)))
     | None => ret ()
     end)
    (m, w)
    (set_saved_stdin
       (match stdin with Some _ => sys_stdin w | None => _saved_stdin m end) m,
     set_sys_stdin
       (match stdin with
        | Some _ => Some (length (objs w))
        | None => sys_stdin w
        end)
       (set_objs
          (λ l, l ++ match stdin with
                     | Some content => [StringIO content false]
                     | None => []
                     end) w))
    (Ok ()).
Proof.
  destruct stdin as [content|].
  - reflexivity.
  - destruct m, w. unfold yields, ret, set_saved_stdin, set_sys_stdin, set_objs.
    simpl. rewrite app_nil_r. reflexivity.
Qed.

Lemma exit_stdin_step (saved : option nat) (m : CaptureManager) (w : World) :
  yields
    (match saved with
     | Some r => proc (modify (set_sys_stdin (Some r)))
     | None => ret ()
     end)
    (m, w)
    (m, set_sys_stdin
          (match saved with Some r => Some r | None => sys_stdin w end) w)
    (Ok ()).
Proof. destruct saved; [reflexivity|]. destruct w. reflexivity. Qed.

Lemma lookup_maybe_delete_ne (b : bool) (k j : Z) (t : gmap Z file) :
  j ≠ k → (if b then delete k else id) t !! j = t !! j.
Proof. intros H. destruct b; [apply lookup_delete_ne; congruence|reflexivity]. Qed.

(** ** Symbolic execution of the methods *)

Ltac len_norm_in H :=
  repeat (progress (rewrite ?length_app, ?length_insert in H));
  simpl length in H.

Ltac len_goal :=
  repeat (progress (rewrite ?length_app, ?length_insert));
  simpl length; lia.

(** Lookups in a descriptor table built by insertions and deletions. *)
Ltac fd_lookup :=
  cbn [fds fileno];
  repeat first
    [ rewrite lookup_insert_eq
    | rewrite lookup_insert_ne by fd_ne
    | rewrite lookup_delete_ne by fd_ne
    | rewrite lookup_maybe_delete_ne by (apply not_eq_sym; fd_ne) ];
  first [eassumption | reflexivity]
with fd_ne :=
  first
    [ assumption
    | apply not_eq_sym; assumption
    | eapply open_ne_lowest_unused; fd_lookup
    | apply not_eq_sym; eapply open_ne_lowest_unused; fd_lookup ].

(** Lookups in a heap built by overwriting and appending: every test on
    the index is settled by arithmetic on lengths. *)
Ltac heap_case :=
  lazymatch goal with
  | |- context [decide ?P] =>
      let Hd := fresh "Hd" in
      destruct (decide P) as [Hd|Hd];
      [ first [exfalso; len_norm_in Hd; lia | clear Hd]
      | first [exfalso; len_norm_in Hd; lia | clear Hd] ]
  end.

Ltac heap_lookup :=
  cbn [objs];
  repeat first
    [ rewrite list_lookup_insert
    | rewrite lookup_snoc_dec
    | rewrite lookup_app_l by len_goal ];
  repeat heap_case;
  first [eassumption | reflexivity].

Ltac s_fault := cbn [faults]; first [reflexivity | assumption].
Ltac s_closed := cbn [closed]; first [assumption | reflexivity].

Ltac decide_branch :=
  lazymatch goal with
  | |- context [decide ?P] =>
      let b := eval vm_compute in (bool_decide P) in
      lazymatch b with
      | true =>
          rewrite (decide_True (P := P))
            by (apply (bool_decide_eq_true_1 P); vm_compute; reflexivity)
      | false =>
          rewrite (decide_False (P := P))
            by (apply (bool_decide_eq_false_1 P); vm_compute; reflexivity)
      end
  end.

Ltac norm :=
  cbv [set_fds set_disk set_objs set_sys_stdin set_sys_stdout set_sys_stderr
       set_next_temp set_faults scope_world
       fresh_manager set_temp_file set_devnull set_saved_stderr
       set_saved_stdout set_saved_stdin set_stdout_fd set_stderr_fd
       set_output set_new_stdout_fd set_new_stderr_fd set_pending closed_obj];
  cbn [fds disk objs sys_stdin sys_stdout sys_stderr next_temp faults fst snd
       _temp_file _capture _devnull _stdin _saved_stderr _saved_stdout
       _saved_stdin _stdout_fd _stderr_fd _saved_stdout_fd _saved_stderr_fd
       _output _new_stdout_fd _new_stderr_fd
       fileno closefd buffered closed pending];
  rewrite ?flushed_Temp, ?flushed_DevNull.

Ltac run :=
  cbv beta iota; norm;
  lazymatch goal with
  | |- yields (bind (proc (decode_temp_file _ _ _)) _) _ _ _ =>
      eapply yields_bind_any; [run | intros ?; run]
  | |- yields (bind _ _) _ _ _ => eapply yields_bind; [run | run]
  | |- yields (if decide _ then _ else _) _ _ _ => decide_branch; run
  | |- yields (match ?x with Some _ => _ | None => ret () end) _ _ _ =>
      first [eapply enter_stdin_step | eapply exit_stdin_step]
  | |- yields (proc _) _ _ _ => eapply yields_proc; run
  | |- yields (attr _) _ _ _ => eapply yields_attr_eq; simpl; reflexivity
  | |- yields (attr_opt _) _ _ _ => eapply yields_attr_opt; simpl; reflexivity
  | |- yields (assign _) _ _ _ => eapply yields_assign
  | |- yields (gets _) _ _ _ =>
      eapply yields_gets_eq; simpl; first [eassumption|reflexivity]
  | |- yields (modify _) _ _ _ => eapply yields_modify
  | |- yields (ret _) _ _ _ => eapply yields_ret
  | |- yields (new_obj _) _ _ _ => eapply yields_new_obj
  | |- yields (the_stream _) _ _ _ =>
      eapply yields_the_stream; simpl; first [eassumption|reflexivity]
  | |- yields (io_flush _) _ _ _ =>
      eapply yields_io_flush; [s_fault|heap_lookup|s_closed|fd_lookup]
  | |- yields (io_close _) _ _ _ =>
      eapply yields_io_close; [s_fault|heap_lookup|s_closed|fd_lookup]
  | |- yields (io_fileno _) _ _ _ =>
      eapply yields_io_fileno; [heap_lookup|s_closed]
  | |- yields (io_seek0 _) _ _ _ =>
      eapply yields_io_seek0;
      [s_fault|heap_lookup|s_closed|reflexivity|fd_lookup]
  | |- yields (decode_temp_file _ _ _) _ _ _ =>
      eapply yields_res;
      [eapply yields_decode_temp_file; [s_fault|heap_lookup|s_closed|fd_lookup]
      |cbn [disk]; rewrite lookup_insert_eq; reflexivity]
  | |- yields (os_dup _) _ _ _ => eapply yields_os_dup; [s_fault|fd_lookup]
  | |- yields (os_dup2 _ _) _ _ _ =>
      eapply yields_os_dup2;
      [s_fault|fd_lookup|first [assumption|apply lowest_unused_nonneg]]
  | |- yields open_devnull _ _ _ => eapply yields_open_devnull; s_fault
  | |- yields TemporaryFile _ _ _ => eapply yields_TemporaryFile; s_fault
  | |- yields (_reopen_stdio _ _) _ _ _ =>
      eapply yields_reopen_stdio; [s_fault|heap_lookup|s_closed|fd_lookup]
  end.

Lemma append_target (c : Capture) (s : std) (k : nat) (acc data : bytes)
  (d : gmap file bytes) :
  append_file (target c s k) data (<[Temp k := acc]> d)
  = <[Temp k := acc ++ keep c s data]> d.
Proof.
  unfold target, keep. destruct (captures c s); simpl.
  - rewrite lookup_insert_eq. simpl. apply insert_insert_eq.
  - rewrite app_nil_r. reflexivity.
Qed.

Lemma flushed_target (c : Capture) (s : std) (k : nat) (acc data : bytes)
  (d : gmap file bytes) :
  flushed (target c s k) data (<[Temp k := acc]> d)
  = <[Temp k := acc ++ keep c s data]> d.
Proof.
  destruct data as [|b data].
  - simpl. unfold keep. destruct (captures c s); rewrite app_nil_r; reflexivity.
  - simpl. apply append_target.
Qed.

Ltac list_ext :=
  apply list_eq; intros ?;
  rewrite ?list_lookup_insert; rewrite ?length_insert;
  repeat case_decide; first [reflexivity | exfalso; intuition lia].

Lemma insert_pair_again {A : Type} (l : list A) (o e : nat) (x y x' y' : A) :
  o ≠ e →
  <[e := y']> (<[o := x']> (<[e := y]> (<[o := x]> l)))
  = <[e := y']> (<[o := x']> l).
Proof. intros Hoe. list_ext. Qed.

Lemma insert_out_again {A : Type} (l : list A) (o e : nat) (x y x' : A) :
  o ≠ e →
  <[o := x']> (<[e := y]> (<[o := x]> l)) = <[e := y]> (<[o := x']> l).
Proof. intros Hoe. list_ext. Qed.

(** ** The block inside a scope *)

Section Block.
Variables (c : Capture) (k : nat) (o e : nat) (fo fe : fileobj).
Hypothesis Hoe : o ≠ e.
Hypothesis Hfd : fileno fo ≠ fileno fe.
Hypothesis Hco : closed fo = false.
Hypothesis Hce : closed fe = false.

Lemma scope_world_again (w : World) (st st' : tape) :
  scope_world (scope_world w o e fo fe k st) o e fo fe k st'
  = scope_world w o e fo fe k st'.
Proof.
  destruct w. unfold scope_world, set_objs, set_disk. simpl. f_equal.
  - apply insert_insert_eq.
  - apply insert_pair_again, Hoe.
Qed.

Lemma scope_world_out (w : World) (st : tape) :
  (o < length (objs w))%nat →
  objs (scope_world w o e fo fe k st) !! o
  = Some (OfFile (set_pending (held_out st) fo)).
Proof.
  intros Ho. simpl. rewrite list_lookup_insert_ne by (apply not_eq_sym, Hoe).
  apply list_lookup_insert_eq, Ho.
Qed.

Lemma scope_world_err (w : World) (st : tape) :
  (e < length (objs w))%nat →
  objs (scope_world w o e fo fe k st) !! e
  = Some (OfFile (set_pending (held_err st) fe)).
Proof.
  intros He. simpl. apply list_lookup_insert_eq.
  rewrite length_insert. exact He.
Qed.

Lemma run_action_scope (w : World) (st : tape) (a : action) :
  scope_frame c k o e fo fe w → on_std (fileno fo) (fileno fe) a →
  yields (run_action a) (scope_world w o e fo fe k st)
    (scope_world w o e fo fe k (feed c (buffered fo) (buffered fe) (fileno fo) st a))
    (Ok ()).
Proof.
  intros (Hso & Hse & Hlo & Hle & Hfo & Hfe & Hfl) Ha.
  pose proof (scope_world_out w st Hlo) as Hobj_o.
  pose proof (scope_world_err w st Hle) as Hobj_e.
  destruct a as [fd data|[] data|[]]; simpl.
  - (* a write on a descriptor *)
    destruct Ha as [->| ->].
    + rewrite decide_True by reflexivity.
      eapply yields_to;
        [eapply yields_os_write; [exact Hfl|exact Hfo]|].
      destruct w. unfold scope_world, set_objs, set_disk. simpl.
      f_equal. apply append_target.
    + rewrite decide_False by (apply not_eq_sym, Hfd).
      eapply yields_to;
        [eapply yields_os_write; [exact Hfl|exact Hfe]|].
      destruct w. unfold scope_world, set_objs, set_disk. simpl.
      f_equal. apply append_target.
  - (* sys.stdout.buffer.write *)
    eapply yields_bind; [apply yields_the_stream; exact Hso|].
    eapply yields_to;
      [eapply yields_io_write; [exact Hfl|exact Hobj_o|exact Hco|exact Hfo]|].
    simpl. destruct (buffered fo).
    + destruct w. unfold scope_world, set_objs, set_disk. simpl. f_equal.
      apply insert_out_again, Hoe.
    + destruct w. unfold scope_world, set_objs, set_disk. simpl.
      f_equal. apply append_target.
  - (* sys.stderr.buffer.write *)
    eapply yields_bind; [apply yields_the_stream; exact Hse|].
    eapply yields_to;
      [eapply yields_io_write; [exact Hfl|exact Hobj_e|exact Hce|exact Hfe]|].
    simpl. destruct (buffered fe).
    + destruct w. unfold scope_world, set_objs, set_disk. simpl. f_equal.
      apply list_insert_insert_eq.
    + destruct w. unfold scope_world, set_objs, set_disk. simpl.
      f_equal. apply append_target.
  - (* sys.stdout.flush *)
    eapply yields_bind; [apply yields_the_stream; exact Hso|].
    eapply yields_to;
      [eapply yields_io_flush; [exact Hfl|exact Hobj_o|exact Hco|exact Hfo]|].
    destruct w. unfold scope_world, set_objs, set_disk. simpl.
    f_equal.
    + apply flushed_target.
    + apply insert_out_again, Hoe.
  - (* sys.stderr.flush *)
    eapply yields_bind; [apply yields_the_stream; exact Hse|].
    eapply yields_to;
      [eapply yields_io_flush; [exact Hfl|exact Hobj_e|exact Hce|exact Hfe]|].
    destruct w. unfold scope_world, set_objs, set_disk. simpl.
    f_equal.
    + apply flushed_target.
    + apply list_insert_insert_eq.
Qed.

Lemma run_block_scope (acts : list action) (w : World) (st : tape) :
  scope_frame c k o e fo fe w → Forall (on_std (fileno fo) (fileno fe)) acts →
  yields (run_block acts) (scope_world w o e fo fe k st)
    (scope_world w o e fo fe k
       (fold_left (feed c (buffered fo) (buffered fe) (fileno fo)) acts st))
    (Ok ()).
Proof.
  intros Hw Hacts. revert st.
  induction Hacts as [|a acts Ha _ IH]; intros st; simpl.
  - reflexivity.
  - eapply yields_bind; [apply run_action_scope; assumption|].
    apply IH.
Qed.

End Block.

Lemma block_from_start (c : Capture) (k : nat) (acts : list action)
  (w : World) (o e : nat) (fo fe : fileobj) :
  sys_stdout w = Some o → sys_stderr w = Some e →
  objs w !! o = Some (OfFile fo) → objs w !! e = Some (OfFile fe) →
  pending fo = [] → pending fe = [] →
  closed fo = false → closed fe = false →
  fileno fo ≠ fileno fe →
  disk w !! Temp k = Some [] →
  fds w !! fileno fo = Some (target c Out k) →
  fds w !! fileno fe = Some (target c Err k) →
  faults w = None →
  Forall (on_std (fileno fo) (fileno fe)) acts →
  yields (run_block acts) w
    (scope_world w o e fo fe k
       (fold_left (feed c (buffered fo) (buffered fe) (fileno fo)) acts
          (Tape [] [] [])))
    (Ok ()).
Proof.
  intros Hso Hse Ho He Hpo Hpe Hco Hce Hfd Hd Hfo Hfe Hfl Hacts.
  assert (Hoe : o ≠ e) by (intros ->; congruence).
  eapply yields_from; [|eapply (run_block_scope c k o e fo fe Hoe Hfd Hco Hce)].
  - assert (Hfo' : set_pending [] fo = fo)
      by (rewrite <- Hpo; apply set_pending_id).
    assert (Hfe' : set_pending [] fe = fe)
      by (rewrite <- Hpe; apply set_pending_id).
    destruct w. unfold scope_world, set_objs, set_disk. simpl in *.
    rewrite Hfo', Hfe'.
    rewrite insert_id by exact Hd.
    rewrite (list_insert_id _ o) by exact Ho.
    rewrite (list_insert_id _ e) by exact He. reflexivity.
  - repeat split; try assumption.
    + eapply lookup_lt_Some, Ho.
    + eapply lookup_lt_Some, He.
  - exact Hacts.
Qed.

Ltac scope_run c0 k :=
  eapply yields_bind; [run|];
  eapply yields_finally_any;
  [ eapply yields_proc; eapply (block_from_start c0 k);
    [ reflexivity | reflexivity | heap_lookup | heap_lookup
    | reflexivity | reflexivity | s_closed | s_closed | assumption
    | cbn [disk]; rewrite lookup_insert_eq; reflexivity
    | fd_lookup | fd_lookup | reflexivity | eassumption ]
  | cbn [buffered fileno];
    lazymatch goal with
    | Hst : ?st = fold_left _ _ _ |- _ => rewrite <- Hst
    end;
    unfold __exit__; run ].

Ltac name_fresh :=
  repeat match goal with
    | |- context [lowest_unused ?M] =>
        lazymatch M with
        | context [lowest_unused _] => fail
        | _ => idtac
        end;
        let Hf := fresh "Hf" in
        let k := fresh "k" in
        pose proof (lowest_unused_fresh M) as Hf;
        set (k := lowest_unused M) in *; clearbody k;
        rewrite ?lookup_insert_None in Hf;
        repeat match type of Hf with
          | _ ∧ _ => let Hn := fresh "Hn" in destruct Hf as [Hf Hn]
          end
    end.

Ltac map_step :=
  match goal with
  | |- context [<[?k := ?v]> ?m !! ?k] => rewrite (lookup_insert_eq m k v)
  | |- context [delete ?k ?m !! ?k] => rewrite (lookup_delete_eq m k)
  | H : ?k ≠ ?j |- context [<[?k := ?v]> ?m !! ?j] =>
      rewrite (lookup_insert_ne m k j v H)
  | H : ?j ≠ ?k |- context [<[?k := ?v]> ?m !! ?j] =>
      rewrite (lookup_insert_ne m k j v (not_eq_sym H))
  | H : ?k ≠ ?j |- context [delete ?k ?m !! ?j] =>
      rewrite (lookup_delete_ne m k j H)
  | H : ?j ≠ ?k |- context [delete ?k ?m !! ?j] =>
      rewrite (lookup_delete_ne m k j (not_eq_sym H))
  | |- context [<[?k := _]> _ !! ?j] =>
      let Heq := fresh "Heq" in
      destruct (decide (k = j)) as [Heq|?]; [first [subst j | subst k]|]
  | |- context [delete ?k _ !! ?j] =>
      let Heq := fresh "Heq" in
      destruct (decide (k = j)) as [Heq|?]; [first [subst j | subst k]|]
  end.

Ltac map_cases :=
  try (apply map_eq; intros ?);
  repeat (map_step; try congruence);
  try congruence.

(** A whole scope in a mode other than NONE, on a process in standard
    condition, for a block of writes and flushes on the standard streams:
    the outcome and the output are those of decoding the captured bytes;
    the two duplicates made by activation are fresh descriptors, still
    open at the end; every descriptor that was open is on the file it was
    on; the temporary file holds the captured bytes and the original
    destinations only got what the stream objects held before. *)
Lemma scope_runs (W : bool) (dd : option (bytes → option text)) (c : Capture)
  (stdin : option string) (acts : list action) w o e fo fe go ge :
  standard w o e fo fe go ge → c ≠ NONE →
  Forall (on_std (fileno fo) (fileno fe)) acts →
  let data := captured c (buffered fo) (buffered fe) (fileno fo) acts in
  let dec := decode_bytes W dd data in
  ∃ s r n1 n2,
    yields (with_ W dd (proc (run_block acts))) (fresh_manager c stdin, w) s r
    ∧ r = match dec with Ok _ => Ok () | Raise ex => Raise ex end
    ∧ _output (fst s) = match dec with Ok t => Some t | Raise _ => None end
    ∧ _capture (fst s) = c
    ∧ (_devnull (fst s) = None ↔ c = BOTH)
    ∧ _new_stdout_fd (fst s) = Some n1
    ∧ _new_stderr_fd (fst s) = Some n2
    ∧ fds w !! n1 = None ∧ fds w !! n2 = None ∧ n1 ≠ n2
    ∧ (∀ fd f, fds w !! fd = Some f → fds (snd s) !! fd = Some f)
    ∧ fds (snd s) !! n1 = Some go
    ∧ fds (snd s) !! n2 = Some ge
    ∧ (is_Ok dec → fds (snd s) = <[n2 := ge]> (<[n1 := go]> (fds w)))
    ∧ disk (snd s)
      = <[Temp (next_temp w) := data]>
          (flushed ge (pending fe) (flushed go (pending fo) (disk w)))
    ∧ sys_stdout (snd s) = Some o
    ∧ sys_stderr (snd s) = Some e
    ∧ sys_stdin (snd s)
      = match stdin, sys_stdin w with
        | Some _, None => Some (length (objs w))
        | _, _ => sys_stdin w
        end.
Proof.
  intros [] Hc Hacts data dec.
  pose proof (lookup_lt_Some _ _ _ std_out_obj0) as Hlo.
  pose proof (lookup_lt_Some _ _ _ std_err_obj0) as Hle.
  assert (o ≠ e) by (intros ->; congruence).
  destruct w as [T D O si so se nt fl]. simpl in *. subst.
  unfold dec, data, captured. clear dec data.
  remember (fold_left (feed c (buffered fo) (buffered fe) (fileno fo)) acts
              (Tape [] [] [])) as st eqn:Hst.
  unfold with_, __enter__.
  destruct c; [| | |congruence]; destruct W.
  all: eexists; eexists; eexists; eexists; split.
  all: try match goal with |- _ ∧ _ => shelve end.
  all: match goal with |- yields _ (fresh_manager ?c0 _, _) _ _ => scope_run c0 nt end. 
  Unshelve.
  all: try match goal with |- Z => shelve end.
  all: cbn [default from_option id keep captures];
    rewrite ?app_nil_l, ?app_nil_r, <- ?app_assoc.
  all: match goal with
       | |- context [decode_bytes ?W ?dd ?d] =>
           destruct (decode_bytes W dd d) as [t|ex] eqn:Hdec
       end.
  all: norm.
  all: repeat match goal with |- _ ∧ _ => split end.
  all: try reflexivity.
  all: try (split; intros; congruence).
  all: try (destruct stdin, si; rewrite ?length_insert; reflexivity).
  all: try (rewrite ?insert_insert_eq, ?app_nil_r; reflexivity).
  all: destruct (closefd fo), (closefd fe); unfold id.
  all: name_fresh.
  all: try assumption.
  all: try (intros HOk; cbn in HOk; contradiction).
  all: try (intros _).
  all: try (intros fd f Hfd).
  all: map_cases.
Qed.

(** Activation in a mode other than NONE, on a process in standard
    condition: it returns, leaves the output unset, opens the discard
    device unless the mode is BOTH, points each standard descriptor at its
    target, and replaces the input stream when an override is given. *)
Lemma enter_runs (W : bool) (c : Capture) (stdin : option string)
  w o e fo fe go ge :
  standard w o e fo fe go ge → c ≠ NONE →
  ∃ s1,
    yields (__enter__ W) (fresh_manager c stdin, w) s1 (Ok ())
    ∧ _output (fst s1) = None
    ∧ _capture (fst s1) = c
    ∧ (_devnull (fst s1) = None ↔ c = BOTH)
    ∧ fds (snd s1) !! fileno fo = Some (target c Out (next_temp w))
    ∧ fds (snd s1) !! fileno fe = Some (target c Err (next_temp w))
    ∧ _saved_stdin (fst s1)
      = match stdin with Some _ => sys_stdin w | None => None end
    ∧ sys_stdin (snd s1)
      = match stdin with
        | Some _ => Some (length (objs w))
        | None => sys_stdin w
        end
    ∧ (∀ txt, stdin = Some txt →
         objs (snd s1) !! length (objs w) = Some (StringIO txt false)).
Proof.
  intros [] Hc.
  pose proof (lookup_lt_Some _ _ _ std_out_obj0) as Hlo.
  pose proof (lookup_lt_Some _ _ _ std_err_obj0) as Hle.
  assert (o ≠ e) by (intros ->; congruence).
  destruct w as [T D O si so se nt fl]. simpl in *. subst.
  unfold __enter__.
  destruct c; [| | |congruence]; destruct W.
  all: eexists; split.
  all: try match goal with |- _ ∧ _ => shelve end.
  all: run.
  Unshelve.
  all: norm.
  all: repeat match goal with |- _ ∧ _ => split end.
  all: try reflexivity.
  all: try (split; intros; congruence).
  all: try (destruct stdin; rewrite ?length_insert; reflexivity).
  all: try (intros txt ->; heap_lookup).
  all: cbv [target captures]; name_fresh; map_cases.
Qed.

(** ** The block and the output *)

Lemma standard_process (out : bytes) :
  standard (process out) 1 2 (FileObj 1 false true false out)
    (FileObj 2 false true false []) (Dest 1) (Dest 2).
Proof.
  split; try reflexivity; try (cbn; lia); try (cbn; discriminate).
  intros fd n. cbn [fds process].
  rewrite !lookup_insert_Some, lookup_empty.
  intros H. exfalso.
  repeat match goal with
    | H : _ ∨ _ |- _ => destruct H as [H|H]
    | H : _ ∧ _ |- _ => destruct H as [? H]
    end; discriminate.
Qed.

Lemma captured_nil c bo be fd_o : captured c bo be fd_o [] = [].
Proof.
  unfold captured, keep. cbn.
  destruct (captures c Out), (captures c Err); reflexivity.
Qed.

Lemma decode_bytes_nil (W : bool) dd : decode_bytes W dd [] = Ok [].
Proof. destruct W; reflexivity. Qed.

Lemma feed_skip c bo be fd_o s st st' a :
  captures c s = false → stream_of fd_o a = s →
  same_but s st st' → same_but s (feed c bo be fd_o st a) st'.
Proof.
  intros Hc Ha [Hf Hh].
  destruct a as [fd data|[] data|[]]; cbn in Ha; subst s; cbn [feed];
    try case_decide; try discriminate;
    repeat match goal with |- context [if ?b then _ else _] =>
             destruct b end;
    unfold keep; rewrite ?Hc, ?app_nil_r; split; cbn; congruence.
Qed.

Lemma feed_both c bo be fd_o s st st' a :
  captures c s = false → stream_of fd_o a ≠ s →
  same_but s st st' →
  same_but s (feed c bo be fd_o st a) (feed c bo be fd_o st' a).
Proof.
  intros Hc Ha [Hf Hh].
  destruct a as [fd data|[] data|[]], s; cbn in Ha, Hh; try congruence;
    cbn [feed]; try case_decide; try congruence;
    repeat match goal with |- context [if ?b then _ else _] =>
             destruct b end;
    split; cbn; congruence.
Qed.

Lemma fold_feed_without c bo be fd_o s acts : ∀ st st',
  captures c s = false → same_but s st st' →
  same_but s (fold_left (feed c bo be fd_o) acts st)
    (fold_left (feed c bo be fd_o) (without fd_o s acts) st').
Proof.
  induction acts as [|a acts IH]; intros st st' Hc Hs; [exact Hs|].
  unfold without. rewrite filter_cons.
  destruct (decide (std_eqb (stream_of fd_o a) s = false)) as [Ha|Ha].
  - cbn [fold_left]. apply IH; [assumption|].
    apply feed_both; [assumption| |assumption].
    intros E. rewrite E in Ha. destruct s; discriminate.
  - cbn [fold_left]. apply IH; [assumption|].
    apply feed_skip; [assumption| |assumption].
    destruct (stream_of fd_o a), s; cbn in Ha; congruence.
Qed.

Lemma captured_without c bo be fd_o s acts :
  captures c s = false →
  captured c bo be fd_o acts = captured c bo be fd_o (without fd_o s acts).
Proof.
  intros Hc. unfold captured.
  destruct (fold_feed_without c bo be fd_o s acts (Tape [] [] [])
              (Tape [] [] []) Hc) as [Hf Hh]; [split; destruct s; reflexivity|].
  cbv zeta. rewrite Hf. unfold keep.
  destruct s; rewrite ?Hc.
  - destruct (captures c Err); [rewrite Hh|]; reflexivity.
  - destruct (captures c Out); [rewrite Hh|]; reflexivity.
Qed.

Lemma output_unset c self :
  _output self = None → _capture self = c → c ≠ NONE →
  output self = Raise RuntimeError.
Proof.
  intros Ho Hc Hn. unfold output. rewrite decide_True; [reflexivity|].
  split; congruence.
Qed.

(** C3: in a mode other than NONE the output accessor raises RuntimeError
    on the new manager, after activation and after any code of the block,
    that is, at every point before finalization; once finalization has
    returned it gives the decoded captured text, and for a block that wrote
    nothing that text is the empty string, not None. *)
Theorem output_accessor (W : bool) (dd : option (bytes → option text))
  (c : Capture) (stdin : option string) (acts : list action)
  w o e fo fe go ge :
  standard w o e fo fe go ge → c ≠ NONE →
  Forall (on_std (fileno fo) (fileno fe)) acts →
  output (fresh_manager c stdin) = Raise RuntimeError
  ∧ (∃ s1, yields (__enter__ W) (fresh_manager c stdin, w) s1 (Ok ())
       ∧ output (fst s1) = Raise RuntimeError
       ∧ ∀ (A : Type) (blk : M World A),
           output (fst (fst (proc blk s1))) = Raise RuntimeError)
  ∧ (∃ s2 r2,
       yields (with_ W dd (proc (run_block acts))) (fresh_manager c stdin, w)
         s2 r2
       ∧ (∀ t, decode_bytes W dd
                 (captured c (buffered fo) (buffered fe) (fileno fo) acts)
               = Ok t →
            r2 = Ok () ∧ output (fst s2) = Ok (Some t))
       ∧ (acts = [] → r2 = Ok () ∧ output (fst s2) = Ok (Some []))).
Proof.
  intros Hstd Hc Hacts. split; [|split].
  - now apply (output_unset c).
  - destruct (enter_runs W c stdin _ _ _ _ _ _ _ Hstd Hc)
      as (s1 & Hrun & Ho & Hcap & _).
    exists s1. split; [exact Hrun|]. split.
    + now apply (output_unset c).
    + intros A blk. apply (output_unset c); rewrite ?proc_self;
        assumption.
  - destruct (scope_runs W dd c stdin acts _ _ _ _ _ _ _ Hstd Hc Hacts)
      as (s2 & r2 & n1 & n2 & Hrun & Hr & Ho & Hcap & _).
    exists s2, r2. split; [exact Hrun|].
    assert (Hdec : ∀ t, decode_bytes W dd
                     (captured c (buffered fo) (buffered fe) (fileno fo) acts)
                   = Ok t → r2 = Ok () ∧ output (fst s2) = Ok (Some t)).
    { intros t Hdec. cbv zeta in Hr, Ho. rewrite Hdec in Hr, Ho.
      split; [exact Hr|]. unfold output. rewrite Ho.
      rewrite decide_False; [reflexivity|]. intros [[=] _]. }
    split; [exact Hdec|].
    intros ->. apply Hdec. rewrite captured_nil. apply decode_bytes_nil.
Qed.

Lemma output_accessor_witness :
  output (fresh_manager BOTH None) = Raise RuntimeError
  ∧ (∃ s1, yields (__enter__ false) (fresh_manager BOTH None, process [104])
             s1 (Ok ())
       ∧ output (fst s1) = Raise RuntimeError
       ∧ ∀ (A : Type) (blk : M World A),
           output (fst (fst (proc blk s1))) = Raise RuntimeError)
  ∧ (∃ s2 r2,
       yields (with_ false None (proc (run_block [PyWrite Out [105]])))
         (fresh_manager BOTH None, process [104]) s2 r2
       ∧ (∀ t, decode_bytes false None
                 (captured BOTH true true 1 [PyWrite Out [105]]) = Ok t →
            r2 = Ok () ∧ output (fst s2) = Ok (Some t))
       ∧ ([PyWrite Out [105]] = [] →
            r2 = Ok () ∧ output (fst s2) = Ok (Some []))).
Proof.
  apply (output_accessor false None BOTH None [PyWrite Out [105]]
           (process [104]) 1 2 (FileObj 1 false true false [104])
           (FileObj 2 false true false []) (Dest 1) (Dest 2)).
  - apply standard_process.
  - discriminate.
  - repeat constructor.
Defined.

Lemma enter_NONE_devnull (W : bool) stdin w :
  _devnull (fst (fst (__enter__ W (fresh_manager NONE stdin, w)))) = None.
Proof. rewrite enter_NONE by reflexivity. reflexivity. Qed.

(** C6: activation opens the discard device exactly in the modes STDOUT
    and STDERR (never for BOTH or NONE); in those two modes the descriptor
    of the stream that is not captured points at the discard device for
    the duration of the scope; what the block does on that stream has no
    influence on the captured output, and no file other than the temporary
    one (so neither original destination) receives anything the block
    wrote: they hold what they held plus what the stream objects had
    buffered before the scope. *)
Theorem null_sink (W : bool) (dd : option (bytes → option text))
  (c : Capture) (stdin : option string) (acts : list action)
  w o e fo fe go ge :
  standard w o e fo fe go ge →
  Forall (on_std (fileno fo) (fileno fe)) acts →
  ∃ s1 r1,
    yields (__enter__ W) (fresh_manager c stdin, w) s1 r1
    ∧ r1 = Ok ()
    ∧ (is_Some (_devnull (fst s1)) ↔ c = STDOUT ∨ c = STDERR)
    ∧ (c = STDOUT →
         fds (snd s1) !! fileno fe = Some DevNull
         ∧ fds (snd s1) !! fileno fo = Some (Temp (next_temp w)))
    ∧ (c = STDERR →
         fds (snd s1) !! fileno fo = Some DevNull
         ∧ fds (snd s1) !! fileno fe = Some (Temp (next_temp w)))
    ∧ (c ≠ NONE →
       ∃ s2 r2,
         yields (with_ W dd (proc (run_block acts)))
           (fresh_manager c stdin, w) s2 r2
         ∧ (∀ s, captures c s = false →
              _output (fst s2)
              = match decode_bytes W dd
                        (captured c (buffered fo) (buffered fe) (fileno fo)
                           (without (fileno fo) s acts)) with
                | Ok t => Some t
                | Raise _ => None
                end)
         ∧ (∀ g, g ≠ Temp (next_temp w) →
              disk (snd s2) !! g
              = flushed ge (pending fe) (flushed go (pending fo) (disk w))
                  !! g)
         ∧ go ≠ Temp (next_temp w) ∧ ge ≠ Temp (next_temp w)).
Proof.
  intros Hstd Hacts.
  destruct (decide (c = NONE)) as [->|Hc].
  - eexists _, _. split; [apply enter_NONE; reflexivity|].
    split; [reflexivity|]. cbn.
    repeat split; try congruence; try (intros [? [=]]).
    intros [[=]|[=]].
  - destruct (enter_runs W c stdin _ _ _ _ _ _ _ Hstd Hc)
      as (s1 & Hrun & _ & _ & Hdev & Hfo & Hfe & _).
    exists s1, (Ok ()). split; [exact Hrun|]. split; [reflexivity|].
    split; [|split; [|split]].
    + rewrite <- not_eq_None_Some, Hdev. destruct c; intuition congruence.
    + intros ->. split; assumption.
    + intros ->. split; assumption.
    + intros _.
      destruct (scope_runs W dd c stdin acts _ _ _ _ _ _ _ Hstd Hc Hacts)
        as (s2 & r2 & n1 & n2 & Hrun2 & _ & Ho & _ & _ & _ & _ & _ & _ & _
            & _ & _ & _ & _ & Hdisk & _).
      exists s2, r2. split; [exact Hrun2|]. split; [|split].
      * intros s Hs. rewrite <- (captured_without c _ _ _ s acts Hs).
        exact Ho.
      * intros g Hg. rewrite Hdisk. apply lookup_insert_ne. congruence.
      * destruct Hstd as [_ _ _ _ _ _ Hgo Hge _ _ _ _ Hfresh].
        split; intros ->.
        -- apply Hfresh in Hgo. lia.
        -- apply Hfresh in Hge. lia.
Qed.

Lemma null_sink_witness :
  ∃ s1 r1,
    yields (__enter__ false) (fresh_manager STDOUT None, process []) s1 r1
    ∧ r1 = Ok ()
    ∧ (is_Some (_devnull (fst s1)) ↔ STDOUT = STDOUT ∨ STDOUT = STDERR)
    ∧ (STDOUT = STDOUT →
         fds (snd s1) !! 2 = Some DevNull
         ∧ fds (snd s1) !! 1 = Some (Temp 0))
    ∧ (STDOUT = STDERR →
         fds (snd s1) !! 1 = Some DevNull
         ∧ fds (snd s1) !! 2 = Some (Temp 0))
    ∧ (STDOUT ≠ NONE →
       ∃ s2 r2,
         yields (with_ false None
                   (proc (run_block [OsWrite 1 [111]; OsWrite 2 [101]])))
           (fresh_manager STDOUT None, process []) s2 r2
         ∧ (∀ s, captures STDOUT s = false →
              _output (fst s2)
              = match decode_bytes false None
                        (captured STDOUT true true 1
                           (without 1 s [OsWrite 1 [111]; OsWrite 2 [101]]))
                with
                | Ok t => Some t
                | Raise _ => None
                end)
         ∧ (∀ g, g ≠ Temp 0 →
              disk (snd s2) !! g
              = flushed (Dest 2) [] (flushed (Dest 1) [] ∅) !! g)
         ∧ Dest 1 ≠ Temp 0 ∧ Dest 2 ≠ Temp 0).
Proof.
  apply (null_sink false None STDOUT None [OsWrite 1 [111]; OsWrite 2 [101]]
           (process []) 1 2 (FileObj 1 false true false [])
           (FileObj 2 false true false []) (Dest 1) (Dest 2)).
  - apply standard_process.
  - repeat constructor; cbn; lia.
Defined.

(** C7, as stated, fails: outside Windows a block that writes the byte
    255 makes finalization raise UnicodeDecodeError, and no output is
    set. *)
Lemma decode_failure_counterexample :
  let run := with_ false None (proc (run_block [OsWrite 1 [255]]))
               (fresh_manager BOTH None, process []) in
  snd run = Raise UnicodeDecodeError ∧ _output (fst (fst run)) = None.
Proof. vm_compute. split; reflexivity. Qed.

(** C7 amended: finalization decodes the bytes of the temporary file; on
    Windows line by line, each line as UTF-8 and, where that fails, with
    the codec of the console device, the decoded lines being joined;
    elsewhere the whole buffer at once as UTF-8.  The decoded text becomes
    the output.  A failure of the decoding (a buffer that is not UTF-8
    outside Windows; on Windows a line that neither UTF-8 nor the device
    codec decodes, or no device codec) propagates out of finalization and
    leaves the output unset. *)
Theorem finalization_decoding (W : bool) (dd : option (bytes → option text))
  (c : Capture) (stdin : option string) (acts : list action)
  w o e fo fe go ge :
  standard w o e fo fe go ge → c ≠ NONE →
  Forall (on_std (fileno fo) (fileno fe)) acts →
  let data := captured c (buffered fo) (buffered fe) (fileno fo) acts in
  ∃ s r,
    yields (with_ W dd (proc (run_block acts))) (fresh_manager c stdin, w) s r
    ∧ disk (snd s) !! Temp (next_temp w) = Some data
    ∧ (W = false →
       match utf8_decode data with
       | Some t => r = Ok () ∧ _output (fst s) = Some t
       | None => r = Raise UnicodeDecodeError ∧ _output (fst s) = None
       end)
    ∧ (W = true →
       match decode_lines dd (splitlines data) with
       | Ok lns => r = Ok () ∧ _output (fst s) = Some (concat lns)
       | Raise ex => r = Raise ex ∧ _output (fst s) = None
       end)
    ∧ (∀ line,
         decode_line dd line
         = match utf8_decode line, dd with
           | Some t, _ => Ok t
           | None, Some codec =>
               match codec line with
               | Some t => Ok t
               | None => Raise UnicodeDecodeError
               end
           | None, None => Raise TypeError
           end)
    ∧ (Forall (λ line, is_Some (utf8_decode line)
                       ∨ ∃ codec, dd = Some codec ∧ is_Some (codec line))
         (splitlines data) →
       W = true → r = Ok () ∧ is_Some (_output (fst s))).
Proof.
  intros Hstd Hc Hacts data.
  destruct (scope_runs W dd c stdin acts _ _ _ _ _ _ _ Hstd Hc Hacts)
    as (s & r & n1 & n2 & Hrun & Hr & Ho & _ & _ & _ & _ & _ & _ & _
        & _ & _ & _ & _ & Hdisk & _).
  fold data in Hr, Ho, Hdisk. cbv zeta in Hr, Ho.
  exists s, r. split; [exact Hrun|].
  split; [rewrite Hdisk; apply lookup_insert_eq|].
  assert (Hline : ∀ line,
    decode_line dd line
    = match utf8_decode line, dd with
      | Some t, _ => Ok t
      | None, Some codec =>
          match codec line with
          | Some t => Ok t
          | None => Raise UnicodeDecodeError
          end
      | None, None => Raise TypeError
      end).
  { intros line. unfold decode_line.
    destruct (utf8_decode line), dd; reflexivity. }
  assert (Hwin : W = true →
    match decode_lines dd (splitlines data) with
    | Ok lns => r = Ok () ∧ _output (fst s) = Some (concat lns)
    | Raise ex => r = Raise ex ∧ _output (fst s) = None
    end).
  { intros ->. unfold decode_bytes in Hr, Ho.
    destruct (decode_lines dd (splitlines data)); split; assumption. }
  split; [|split; [exact Hwin|split; [exact Hline|]]].
  - intros ->. unfold decode_bytes in Hr, Ho.
    destruct (utf8_decode data); split; assumption.
  - intros Hall HW. specialize (Hwin HW).
    assert (Hok : ∃ lns, decode_lines dd (splitlines data) = Ok lns).
    { clear Hwin. induction Hall as [|line rest Hl _ IH]; [now exists []|].
      destruct IH as [lns IH]. cbn [decode_lines]. rewrite IH, Hline.
      destruct Hl as [[t Ht]|(codec & -> & [t Ht])].
      - rewrite Ht. eauto.
      - destruct (utf8_decode line); [eauto|]. rewrite Ht. eauto. }
    destruct Hok as [lns Hok]. rewrite Hok in Hwin.
    destruct Hwin as [-> ->]. eauto.
Qed.

Lemma finalization_decoding_witness :
  let data := captured BOTH true true 1 [OsWrite 1 [255; 10; 104]] in
  ∃ s r,
    yields (with_ true (Some latin1) (proc (run_block [OsWrite 1 [255; 10; 104]])))
      (fresh_manager BOTH None, process []) s r
    ∧ disk (snd s) !! Temp 0 = Some data
    ∧ (true = false →
       match utf8_decode data with
       | Some t => r = Ok () ∧ _output (fst s) = Some t
       | None => r = Raise UnicodeDecodeError ∧ _output (fst s) = None
       end)
    ∧ (true = true →
       match decode_lines (Some latin1) (splitlines data) with
       | Ok lns => r = Ok () ∧ _output (fst s) = Some (concat lns)
       | Raise ex => r = Raise ex ∧ _output (fst s) = None
       end)
    ∧ (∀ line,
         decode_line (Some latin1) line
         = match utf8_decode line, Some latin1 with
           | Some t, _ => Ok t
           | None, Some codec =>
               match codec line with
               | Some t => Ok t
               | None => Raise UnicodeDecodeError
               end
           | None, None => Raise TypeError
           end)
    ∧ (Forall (λ line, is_Some (utf8_decode line)
                       ∨ ∃ codec, Some latin1 = Some codec ∧ is_Some (codec line))
         (splitlines data) →
       true = true → r = Ok () ∧ is_Some (_output (fst s))).
Proof.
  apply (finalization_decoding true (Some latin1) BOTH None [OsWrite 1 [255; 10; 104]]
           (process []) 1 2 (FileObj 1 false true false [])
           (FileObj 2 false true false []) (Dest 1) (Dest 2)).
  - apply standard_process.
  - discriminate.
  - repeat constructor; cbn; lia.
Defined.



















(** * Further properties *)

(** ** The enumeration and its text *)

Lemma Capture_call_inv (s : string) (c : Capture) :
  Capture_call s = Ok c → s = value c.
Proof.
  unfold Capture_call, members. simpl.
  repeat match goal with
         | |- context [String.eqb s ?v] =>
             destruct (String.eqb_spec s v) as [->|_]
         end;
    intros [=]; subst; reflexivity.
Qed.

(** X1: [str] and [cast] are inverse to each other on text: casting the
    text of a mode gives the mode back, and a text that [cast] accepts is
    the text [str] gives for the result, so only the four lower-case names
    are accepted. *)
Theorem cast_str_round_trip :
  (∀ c, cast (ArgStr (Capture_str c)) = Ok c)
  ∧ (∀ s c, cast (ArgStr s) = Ok c → Capture_str c = s)
  ∧ (∀ c d, Capture_str c = Capture_str d → c = d).
Proof.
  split; [|split].
  - intros []; reflexivity.
  - intros s c H. apply Capture_call_inv in H. subst s.
    destruct c; reflexivity.
  - intros [] []; (reflexivity || discriminate).
Qed.

(** ** A scope that captures nothing *)

Lemma handles_ret {A : Type} (a : A) : keeps_handles (ret a).
Proof. intros w. reflexivity. Qed.

Lemma handles_raise {A : Type} (e : exn) : keeps_handles (@raise World A e).
Proof. intros w. reflexivity. Qed.

Lemma handles_gets {A : Type} (f : World → A) : keeps_handles (gets f).
Proof. intros w. reflexivity. Qed.

Lemma handles_modify (f : World → World) :
  (∀ w, handles (f w) = handles w) → keeps_handles (modify f).
Proof. intros Hf w. apply Hf. Qed.

Lemma handles_bind {A B : Type} (m : M World A) (k : A → M World B) :
  keeps_handles m → (∀ a, keeps_handles (k a)) → keeps_handles (bind m k).
Proof.
  intros Hm Hk w. unfold bind. specialize (Hm w).
  destruct (m w) as [w1 [a|e]]; [|exact Hm].
  rewrite Hk. exact Hm.
Qed.

Lemma handles_syscall : keeps_handles syscall.
Proof.
  intros w. unfold syscall. destruct (faults w) as [[|k]|]; reflexivity.
Qed.

Ltac handles_step :=
  repeat first
    [ apply handles_ret | apply handles_raise | apply handles_gets
    | apply handles_syscall
    | apply handles_modify; intros ?; reflexivity
    | apply handles_bind; [|intros ?]
    | match goal with
      | |- keeps_handles (match ?x with _ => _ end) => destruct x
      end ].

Lemma handles_os_write fd data : keeps_handles (os_write fd data).
Proof. unfold os_write, file_of. handles_step. Qed.

Lemma handles_io_flush r : keeps_handles (io_flush r).
Proof.
  unfold io_flush, obj_get, obj_set. handles_step; apply handles_os_write.
Qed.

Lemma handles_io_write r data : keeps_handles (io_write r data).
Proof.
  unfold io_write, obj_get, obj_set. handles_step; apply handles_os_write.
Qed.

Lemma handles_the_stream get : keeps_handles (the_stream get).
Proof. unfold the_stream. handles_step. Qed.

Lemma handles_run_block acts : keeps_handles (run_block acts).
Proof.
  induction acts as [|a acts IH]; cbn [run_block]; [apply handles_ret|].
  apply handles_bind; [|intros _; exact IH].
  destruct a; cbn [run_action];
    [ apply handles_os_write
    | apply handles_bind;
        [apply handles_the_stream|intros ?; apply handles_io_write]
    | apply handles_bind;
        [apply handles_the_stream|intros ?; apply handles_io_flush] ].
Qed.

Lemma handles_flush_std_streams : keeps_handles flush_std_streams.
Proof.
  unfold flush_std_streams.
  repeat first [ apply handles_the_stream | apply handles_io_flush
               | apply handles_bind; [|intros ?] ].
Qed.

(** X2: a scope in mode NONE is a pass-through for the whole process
    interface, in any process, even one where system calls fail: whatever
    block of writes and flushes runs inside and however the scope ends, the
    manager is the one that was built, and the descriptor table,
    [sys.stdin], [sys.stdout] and [sys.stderr] are what they were.  The
    scope is the block followed by the flush of the two streams: an
    exception of the block comes out, unless that flush raises. *)
Theorem none_scope_pass_through (W : bool) (dd : option (bytes → option text))
  (stdin : option string) (acts : list action) (w : World) :
  let run := here W dd NONE stdin (proc (run_block acts)) w in
  fst (fst run) = fresh_manager NONE stdin
  ∧ handles (snd (fst run)) = handles w
  ∧ snd (fst run) = fst (flush_std_streams (fst (run_block acts w)))
  ∧ snd run = match snd (flush_std_streams (fst (run_block acts w))) with
              | Ok _ => snd (run_block acts w)
              | Raise e => Raise e
              end.
Proof.
  intros run. unfold run. rewrite here_unfold.
  split; [apply with_NONE_self; reflexivity|].
  unfold with_, bind. rewrite enter_NONE by reflexivity.
  unfold finally, proc. cbn [fst snd].
  pose proof (handles_run_block acts w) as Hb.
  destruct (run_block acts w) as [w1 r]. cbn [fst snd] in *.
  rewrite exit_NONE by reflexivity. unfold proc. cbn [fst snd].
  pose proof (handles_flush_std_streams w1) as Hf.
  destruct (flush_std_streams w1) as [w2 [[]|e]]; cbn [fst snd] in *;
    repeat split; congruence.
Qed.

(** ** The order of the captured bytes *)

Lemma keep_nil c s : keep c s [] = [].
Proof. unfold keep. destruct (captures c s); reflexivity. Qed.

Lemma fold_feed_direct c bo be fd_o acts : ∀ st,
  Forall (direct bo be) acts → held_out st = [] → held_err st = [] →
  let st' := fold_left (feed c bo be fd_o) acts st in
  in_file st' = in_file st ++ concat (map (written c fd_o) acts)
  ∧ held_out st' = [] ∧ held_err st' = [].
Proof.
  induction acts as [|a acts IH]; intros st Hd Ho He; cbn [fold_left map concat].
  - rewrite app_nil_r. auto.
  - inversion Hd as [|? ? Ha Hd']; subst.
    assert (Hstep : in_file (feed c bo be fd_o st a)
                    = in_file st ++ written c fd_o a
                    ∧ held_out (feed c bo be fd_o st a) = []
                    ∧ held_err (feed c bo be fd_o st a) = []).
    { destruct a as [fd data|[] data|[]]; cbn in Ha; cbn [feed written stream_of];
        subst; try case_decide; cbn [in_file held_out held_err];
        rewrite ?Ho, ?He, ?keep_nil, ?app_nil_r; auto. }
    destruct Hstep as (Hf & Ho' & He').
    destruct (IH _ Hd' Ho' He') as (IHf & IHo & IHe).
    cbv zeta. rewrite IHf, Hf, <- app_assoc. auto.
Qed.

Lemma captured_direct c bo be fd_o acts :
  Forall (direct bo be) acts →
  captured c bo be fd_o acts = concat (map (written c fd_o) acts).
Proof.
  intros Hd. unfold captured.
  destruct (fold_feed_direct c bo be fd_o acts (Tape [] [] []) Hd
              eq_refl eq_refl) as (Hf & Ho & He).
  cbv zeta. rewrite Hf, Ho, He, !keep_nil, !app_nil_r. reflexivity.
Qed.



(** ** Decoding line by line and at once *)

Lemma splitlines_prefix (p r : bytes) :
  p ≠ [] → Forall (λ b, b ≠ 10) p →
  splitlines (p ++ r) = glue_all p (splitlines r).
Proof.
  induction p as [|b p IH]; intros Hp Hall; [congruence|].
  inversion Hall as [|? ? Hb Hall']; subst.
  cbn [app splitlines]. rewrite (proj2 (Z.eqb_neq b 10)) by exact Hb.
  destruct p as [|b' p'].
  - cbn [app]. destruct (splitlines r); reflexivity.
  - rewrite IH by (assumption || discriminate).
    destruct (splitlines r); reflexivity.
Qed.

Ltac bools :=
  repeat match goal with
    | H : _ && _ = true |- _ => apply andb_true_iff in H; destruct H
    | H : is_cont _ = true |- _ => unfold is_cont in H
    | H : (_ <=? _) = true |- _ => apply Z.leb_le in H
    | H : (_ <? _) = true |- _ => apply Z.ltb_lt in H
    end.

(** One code point taken off the front of a buffer that decodes: the
    bytes [p] of its encoding decode to [cp] in front of any buffer, and
    hold a line feed only when they are the line feed. *)
Lemma utf8_step (b0 : Z) (r0 : bytes) (t : text) :
  utf8_decode (b0 :: r0) = Some t →
  ∃ p cp r t',
    b0 :: r0 = p ++ r ∧ p ≠ []
    ∧ (p = [10] ∨ Forall (λ b, b ≠ 10) p)
    ∧ t = cp :: t' ∧ utf8_decode r = Some t'
    ∧ ∀ l, utf8_decode (p ++ l) = cons cp <$> utf8_decode l.
Proof.
  cbn [utf8_decode].
  destruct ((0 <=? b0) && (b0 <? 128)) eqn:H1.
  { intros H. destruct (utf8_decode r0) as [t'|] eqn:Hr; [|discriminate].
    cbn in H. injection H as <-.
    exists [b0], b0, r0, t'.
    split; [reflexivity|]. split; [discriminate|]. split.
    { destruct (decide (b0 = 10)) as [->|Hb];
        [left; reflexivity|right; repeat constructor; exact Hb]. }
    split; [reflexivity|]. split; [exact Hr|].
    intros l. cbn [app utf8_decode]. rewrite H1. reflexivity. }
  destruct ((194 <=? b0) && (b0 <=? 223)) eqn:H2.
  { destruct r0 as [|b1 r1]; [discriminate|].
    destruct (is_cont b1) eqn:C1; [|discriminate].
    intros H. destruct (utf8_decode r1) as [t'|] eqn:Hr; [|discriminate].
    cbn in H. injection H as <-.
    exists [b0; b1]. eexists. exists r1, t'.
    split; [reflexivity|]. split; [discriminate|]. split.
    { right. bools. repeat constructor; lia. }
    split; [reflexivity|]. split; [exact Hr|].
    intros l. cbn [app utf8_decode]. rewrite H1, H2, C1. reflexivity. }
  destruct ((224 <=? b0) && (b0 <=? 239)) eqn:H3.
  { destruct r0 as [|b1 [|b2 r2]]; [discriminate..|].
    match goal with
    | |- (if ?cond then _ else _) = _ → _ => destruct cond eqn:C
    end; [|discriminate].
    intros H. destruct (utf8_decode r2) as [t'|] eqn:Hr; [|discriminate].
    cbn in H. injection H as <-.
    exists [b0; b1; b2]. eexists. exists r2, t'.
    split; [reflexivity|]. split; [discriminate|]. split.
    { right. clear Hr. bools. repeat constructor; lia. }
    split; [reflexivity|]. split; [exact Hr|].
    intros l. cbn [app utf8_decode]. rewrite H1, H2, H3, C. reflexivity. }
  destruct ((240 <=? b0) && (b0 <=? 244)) eqn:H4; [|discriminate].
  destruct r0 as [|b1 [|b2 [|b3 r3]]]; [discriminate..|].
  match goal with
  | |- (if ?cond then _ else _) = _ → _ => destruct cond eqn:C
  end; [|discriminate].
  intros H. destruct (utf8_decode r3) as [t'|] eqn:Hr; [|discriminate].
  cbn in H. injection H as <-.
  exists [b0; b1; b2; b3]. eexists. exists r3, t'.
  split; [reflexivity|]. split; [discriminate|]. split.
  { right. clear Hr. bools. repeat constructor; lia. }
  split; [reflexivity|]. split; [exact Hr|].
  intros l. cbn [app utf8_decode]. rewrite H1, H2, H3, H4, C. reflexivity.
Qed.

Lemma utf8_lines_bounded (n : nat) : ∀ (bs : bytes) (t : text),
  (length bs ≤ n)%nat → utf8_decode bs = Some t →
  ∃ lns, Forall2 (λ l ln, utf8_decode l = Some ln) (splitlines bs) lns
         ∧ concat lns = t.
Proof.
  induction n as [|n IH]; intros bs t Hlen Hdec.
  - destruct bs; [|cbn in Hlen; lia]. cbn in Hdec. injection Hdec as <-.
    exists []. split; [constructor|reflexivity].
  - destruct bs as [|b0 r0].
    { cbn in Hdec. injection Hdec as <-.
      exists []. split; [constructor|reflexivity]. }
    destruct (utf8_step b0 r0 t Hdec)
      as (p & cp & r & t' & Hsplit & Hp & Hlf & -> & Hr & Hfront).
    assert (Hlr : (length r ≤ n)%nat).
    { apply (f_equal length) in Hsplit. rewrite length_app in Hsplit.
      cbn in Hsplit, Hlen. destruct p; [congruence|]. cbn in Hsplit. lia. }
    destruct (IH r t' Hlr Hr) as (lns & Hall & Hcat).
    rewrite Hsplit.
    assert (Hp1 : utf8_decode p = Some [cp]).
    { specialize (Hfront []). rewrite app_nil_r in Hfront. exact Hfront. }
    destruct Hlf as [->|Hnolf].
    + exists ([cp] :: lns). split; [|cbn; congruence].
      cbn [app splitlines]. cbn [Z.eqb Pos.eqb]. constructor; assumption.
    + rewrite splitlines_prefix by assumption.
      destruct Hall as [|l ln ls lns' Hl Hrest]; cbn [glue_all].
      * exists [[cp]]. split; [repeat constructor; exact Hp1|].
        cbn in *. congruence.
      * exists ((cp :: ln) :: lns'). split; [|cbn in *; congruence].
        constructor; [|exact Hrest]. rewrite Hfront, Hl. reflexivity.
Qed.

Lemma decode_lines_utf8 (dd : option (bytes → option text))
  (ls : list bytes) (lns : list text) :
  Forall2 (λ l ln, utf8_decode l = Some ln) ls lns →
  decode_lines dd ls = Ok lns.
Proof.
  induction 1 as [|l ln ls lns Hl _ IH]; [reflexivity|].
  cbn [decode_lines]. unfold decode_line. rewrite Hl, IH. reflexivity.
Qed.

Lemma decode_bytes_utf8 (W : bool) (dd : option (bytes → option text))
  (data : bytes) (t : text) :
  utf8_decode data = Some t → decode_bytes W dd data = Ok t.
Proof.
  intros Hdec. unfold decode_bytes. destruct W; [|rewrite Hdec; reflexivity].
  destruct (utf8_lines_bounded (length data) data t (le_n _) Hdec)
    as (lns & Hall & <-).
  rewrite (decode_lines_utf8 dd _ _ Hall). reflexivity.
Qed.

(** ** A scope whose block returns or raises *)

Lemma block_then (c : Capture) (k : nat) (acts : list action)
  (r0 : result unit) (w : World) (o e : nat) (fo fe : fileobj) :
  sys_stdout w = Some o → sys_stderr w = Some e →
  objs w !! o = Some (OfFile fo) → objs w !! e = Some (OfFile fe) →
  pending fo = [] → pending fe = [] →
  closed fo = false → closed fe = false →
  fileno fo ≠ fileno fe →
  disk w !! Temp k = Some [] →
  fds w !! fileno fo = Some (target c Out k) →
  fds w !! fileno fe = Some (target c Err k) →
  faults w = None →
  Forall (on_std (fileno fo) (fileno fe)) acts →
  yields (run_block acts ;; of_result r0) w
    (scope_world w o e fo fe k
       (fold_left (feed c (buffered fo) (buffered fe) (fileno fo)) acts
          (Tape [] [] [])))
    r0.
Proof.
  intros. eapply yields_bind; [eapply (block_from_start c k); eassumption|].
  reflexivity.
Qed.

Ltac scope_run_then c0 k :=
  eapply yields_bind; [run|];
  eapply yields_finally_any;
  [ eapply yields_proc; eapply (block_then c0 k);
    [ reflexivity | reflexivity | heap_lookup | heap_lookup
    | reflexivity | reflexivity | s_closed | s_closed | assumption
    | cbn [disk]; rewrite lookup_insert_eq; reflexivity
    | fd_lookup | fd_lookup | reflexivity | eassumption ]
  | cbn [buffered fileno];
    lazymatch goal with
    | Hst : ?st = fold_left _ _ _ |- _ => rewrite <- Hst
    end;
    unfold __exit__; run ].

Lemma scope_ends (W : bool) (dd : option (bytes → option text)) (c : Capture)
  (stdin : option string) (acts : list action) (r0 : result unit)
  w o e fo fe go ge :
  standard w o e fo fe go ge → c ≠ NONE →
  Forall (on_std (fileno fo) (fileno fe)) acts →
  let data := captured c (buffered fo) (buffered fe) (fileno fo) acts in
  let dec := decode_bytes W dd data in
  ∃ s r,
    yields (with_ W dd (proc (run_block acts ;; of_result r0)))
      (fresh_manager c stdin, w) s r
    ∧ r = match dec with Ok _ => r0 | Raise ex => Raise ex end
    ∧ _output (fst s) = match dec with Ok t => Some t | Raise _ => None end
    ∧ _capture (fst s) = c
    ∧ (∀ fd f, fds w !! fd = Some f → fds (snd s) !! fd = Some f)
    ∧ fds w !! temp_fd c (fds w) = None
    ∧ fds (snd s) !! temp_fd c (fds w)
      = match dec with
        | Ok _ => None
        | Raise _ => Some (Temp (next_temp w))
        end
    ∧ sys_stdout (snd s) = Some o
    ∧ sys_stderr (snd s) = Some e
    ∧ objs (snd s) !! o = Some (left_obj W fo)
    ∧ objs (snd s) !! e = Some (left_obj W fe).
Proof.
  intros [Hso Hse Hoo Heo Hco Hce Hfo Hfe Hne Hno Hnn Hfl Htf] Hc Hacts
    data dec.
  pose proof (lookup_lt_Some _ _ _ Hoo) as Hlo.
  pose proof (lookup_lt_Some _ _ _ Heo) as Hle.
  assert (o ≠ e) by (intros ->; congruence).
  destruct w as [T D O si so se nt fl]. simpl in *. subst.
  unfold dec, data, captured. clear dec data.
  remember (fold_left (feed c (buffered fo) (buffered fe) (fileno fo)) acts
              (Tape [] [] [])) as st eqn:Hst.
  unfold with_, __enter__.
  destruct c; [| | |congruence]; destruct W.
  all: eexists; eexists; split.
  all: try match goal with |- _ ∧ _ => shelve end.
  all: match goal with
       | |- yields _ (fresh_manager ?c0 _, _) _ _ => scope_run_then c0 nt
       end.
  Unshelve.
  all: cbn [default from_option id keep captures];
    rewrite ?app_nil_l, ?app_nil_r, <- ?app_assoc.
  all: match goal with
       | |- context [decode_bytes ?W ?dd ?d] =>
           destruct (decode_bytes W dd d) as [t|ex] eqn:Hdec
       end.
  all: norm.
  all: repeat match goal with |- _ ∧ _ => split end.
  all: try reflexivity.
  all: cbv [temp_fd left_obj negb].
  all: try match goal with
           | |- _ !! _ = Some (OfFile _) =>
               rewrite ?Hco, ?Hce, ?app_assoc; heap_lookup
           end.
  all: destruct (closefd fo), (closefd fe); unfold id.
  all: try (intros fd f Hfd).
  all: name_fresh.
  all: try assumption.
  all: map_cases.
Qed.

(** ** A block that raises, and what a scope leaves behind *)

Lemma flushed_lookup_same (g : file) (p : bytes) (d : gmap file bytes) :
  p ≠ [] → g ≠ DevNull →
  flushed g p d !! g = Some (default [] (d !! g) ++ p).
Proof.
  intros Hp Hg. unfold flushed, append_file.
  destruct p; [congruence|]. destruct g; [congruence|..];
    apply lookup_insert_eq.
Qed.

Lemma flushed_lookup_other (g g' : file) (p : bytes) (d : gmap file bytes) :
  g ≠ g' → flushed g' p d !! g = d !! g.
Proof.
  intros Hg. unfold flushed, append_file.
  destruct p; [reflexivity|]. destruct g'; [reflexivity|..];
    apply lookup_insert_ne; congruence.
Qed.

Lemma output_set (self : CaptureManager) (t : text) :
  _output self = Some t → output self = Ok (Some t).
Proof.
  intros Ho. unfold output. rewrite Ho.
  rewrite decide_False; [reflexivity|]. intros [[=] _].
Qed.

(** X3: an exception raised by the block, after its writes, does not stop
    the capture: finalization runs, the exception of the block comes out
    of the scope, the output is the decoded captured text and can be read,
    and the descriptors and stream references the process had are as
    before. *)
Theorem block_exception_propagates (W : bool)
  (dd : option (bytes → option text)) (c : Capture) (stdin : option string)
  (acts : list action) (ex0 : exn) (t : text) w o e fo fe go ge :
  standard w o e fo fe go ge → c ≠ NONE →
  Forall (on_std (fileno fo) (fileno fe)) acts →
  decode_bytes W dd (captured c (buffered fo) (buffered fe) (fileno fo) acts)
  = Ok t →
  ∃ s,
    yields (with_ W dd (proc (run_block acts ;; @raise World unit ex0)))
      (fresh_manager c stdin, w) s (Raise ex0)
    ∧ output (fst s) = Ok (Some t)
    ∧ (∀ fd f, fds w !! fd = Some f → fds (snd s) !! fd = Some f)
    ∧ sys_stdout (snd s) = sys_stdout w
    ∧ sys_stderr (snd s) = sys_stderr w.
Proof.
  intros Hstd Hc Hacts Hdec.
  destruct (scope_ends W dd c stdin acts (Raise ex0) _ _ _ _ _ _ _
              Hstd Hc Hacts)
    as (s & r & Hrun & Hr & Ho & _ & Hfds & _ & _ & Hso & Hse & _).
  cbv zeta in Hr, Ho. rewrite Hdec in Hr, Ho. subst r.
  exists s. split; [exact Hrun|]. split; [now apply output_set|].
  split; [exact Hfds|].
  destruct Hstd as [Hwo Hwe _ _ _ _ _ _ _ _ _ _ _]. split; congruence.
Qed.

Lemma block_exception_propagates_witness :
  ∃ s,
    yields (with_ false None
              (proc (run_block [OsWrite 1 [104]; PyWrite Err [105]]
                     ;; @raise World unit RuntimeError)))
      (fresh_manager BOTH None, process []) s (Raise RuntimeError)
    ∧ output (fst s) = Ok (Some [104; 105])
    ∧ (∀ fd f, fds (process []) !! fd = Some f → fds (snd s) !! fd = Some f)
    ∧ sys_stdout (snd s) = sys_stdout (process [])
    ∧ sys_stderr (snd s) = sys_stderr (process []).
Proof.
  apply (block_exception_propagates false None BOTH None
           [OsWrite 1 [104]; PyWrite Err [105]] RuntimeError [104; 105]
           (process []) 1 2 (FileObj 1 false true false [])
           (FileObj 2 false true false []) (Dest 1) (Dest 2)).
  - apply standard_process.
  - discriminate.
  - repeat constructor; cbn; lia.
  - reflexivity.
Defined.

Lemma io_flush_closed (w : World) (r : nat) (f : fileobj) :
  objs w !! r = Some (OfFile f) → closed f = true →
  yields (io_flush r) w w (Raise ValueError).
Proof.
  intros Hr Hc. unfold yields, io_flush, bind, obj_get, gets.
  cbn. rewrite Hr. cbn. rewrite Hc. reflexivity.
Qed.

Lemma enter_closed_stdout (W : bool) (m : CaptureManager) (w : World)
  (o : nat) (f : fileobj) :
  _capture m ≠ NONE → sys_stdout w = Some o →
  objs w !! o = Some (OfFile f) → closed f = true →
  yields (__enter__ W) (m, w) (m, w) (Raise ValueError).
Proof.
  intros Hm Hso Ho Hc. unfold __enter__.
  eapply yields_bind; [apply yields_attr|].
  rewrite decide_False by exact Hm.
  eapply yields_bind; [apply yields_proc, yields_the_stream, Hso|].
  apply yields_bind_raise, yields_proc.
  eapply io_flush_closed; eassumption.
Qed.

(** X4: after a capturing scope, [sys.stdout] and [sys.stderr] are the
    objects they were, with nothing pending.  Outside Windows those
    objects are closed by the finalization, so that the activation of a
    further capturing scope raises ValueError at its first flush and
    changes nothing; on Windows, where the scope closed the reopened
    objects instead, they are still open. *)
Theorem streams_after_scope (W : bool) (dd : option (bytes → option text))
  (c : Capture) (stdin : option string) (acts : list action)
  (r0 : result unit) w o e fo fe go ge :
  standard w o e fo fe go ge → c ≠ NONE →
  Forall (on_std (fileno fo) (fileno fe)) acts →
  ∃ s r,
    yields (with_ W dd (proc (run_block acts ;; of_result r0)))
      (fresh_manager c stdin, w) s r
    ∧ sys_stdout (snd s) = Some o ∧ sys_stderr (snd s) = Some e
    ∧ objs (snd s) !! o
      = Some (OfFile (FileObj (fileno fo) (closefd fo) (buffered fo)
                        (negb W) []))
    ∧ objs (snd s) !! e
      = Some (OfFile (FileObj (fileno fe) (closefd fe) (buffered fe)
                        (negb W) []))
    ∧ (W = false →
       ∀ c' stdin', c' ≠ NONE →
         yields (__enter__ W) (fresh_manager c' stdin', snd s)
           (fresh_manager c' stdin', snd s) (Raise ValueError)).
Proof.
  intros Hstd Hc Hacts.
  destruct (scope_ends W dd c stdin acts r0 _ _ _ _ _ _ _ Hstd Hc Hacts)
    as (s & r & Hrun & _ & _ & _ & _ & _ & _ & Hso & Hse & Hoo & Hoe).
  exists s, r. split; [exact Hrun|].
  split; [exact Hso|]. split; [exact Hse|].
  split; [exact Hoo|]. split; [exact Hoe|].
  intros -> c' stdin' Hc'.
  eapply enter_closed_stdout; [exact Hc'|exact Hso|exact Hoo|reflexivity].
Qed.

Lemma streams_after_scope_witness :
  ∃ s r,
    yields (with_ false None (proc (run_block [PyWrite Out [104]]
                                    ;; of_result (Ok ()))))
      (fresh_manager STDOUT None, process []) s r
    ∧ sys_stdout (snd s) = Some 1%nat ∧ sys_stderr (snd s) = Some 2%nat
    ∧ objs (snd s) !! 1%nat
      = Some (OfFile (FileObj 1 false true (negb false) []))
    ∧ objs (snd s) !! 2%nat
      = Some (OfFile (FileObj 2 false true (negb false) []))
    ∧ (false = false →
       ∀ c' stdin', c' ≠ NONE →
         yields (__enter__ false) (fresh_manager c' stdin', snd s)
           (fresh_manager c' stdin', snd s) (Raise ValueError)).
Proof.
  apply (streams_after_scope false None STDOUT None [PyWrite Out [104]]
           (Ok ()) (process []) 1 2 (FileObj 1 false true false [])
           (FileObj 2 false true false []) (Dest 1) (Dest 2)).
  - apply standard_process.
  - discriminate.
  - repeat constructor.
Defined.

(** X5: when the decoding of the captured bytes fails, finalization has
    already restored the descriptors the process had, but it raises
    before it closes the temporary file: the scope ends with the decoding
    error, also when the block had raised another exception, the output
    stays unset, and the descriptor of the temporary file, which was not
    open before the scope, stays open on that file. *)
Theorem decode_failure_leaves_temp_file (W : bool)
  (dd : option (bytes → option text)) (c : Capture) (stdin : option string)
  (acts : list action) (r0 : result unit) (ex : exn) w o e fo fe go ge :
  standard w o e fo fe go ge → c ≠ NONE →
  Forall (on_std (fileno fo) (fileno fe)) acts →
  decode_bytes W dd (captured c (buffered fo) (buffered fe) (fileno fo) acts)
  = Raise ex →
  ∃ s,
    yields (with_ W dd (proc (run_block acts ;; of_result r0)))
      (fresh_manager c stdin, w) s (Raise ex)
    ∧ output (fst s) = Raise RuntimeError
    ∧ (∀ fd f, fds w !! fd = Some f → fds (snd s) !! fd = Some f)
    ∧ fds w !! temp_fd c (fds w) = None
    ∧ fds (snd s) !! temp_fd c (fds w) = Some (Temp (next_temp w)).
Proof.
  intros Hstd Hc Hacts Hdec.
  destruct (scope_ends W dd c stdin acts r0 _ _ _ _ _ _ _ Hstd Hc Hacts)
    as (s & r & Hrun & Hr & Ho & Hcap & Hfds & Hfresh & Htmp & _).
  cbv zeta in Hr, Ho, Htmp. rewrite Hdec in Hr, Ho, Htmp. subst r.
  exists s. split; [exact Hrun|]. split.
  { unfold output. rewrite decide_True; [reflexivity|].
    split; congruence. }
  split; [exact Hfds|]. split; assumption.
Qed.

Lemma decode_failure_leaves_temp_file_witness :
  ∃ s,
    yields (with_ false None (proc (run_block [OsWrite 1 [255]]
                                    ;; of_result (Ok ()))))
      (fresh_manager BOTH None, process []) s (Raise UnicodeDecodeError)
    ∧ output (fst s) = Raise RuntimeError
    ∧ (∀ fd f, fds (process []) !! fd = Some f → fds (snd s) !! fd = Some f)
    ∧ fds (process []) !! temp_fd BOTH (fds (process [])) = None
    ∧ fds (snd s) !! temp_fd BOTH (fds (process [])) = Some (Temp 0).
Proof.
  apply (decode_failure_leaves_temp_file false None BOTH None
           [OsWrite 1 [255]] (Ok ()) UnicodeDecodeError
           (process []) 1 2 (FileObj 1 false true false [])
           (FileObj 2 false true false []) (Dest 1) (Dest 2)).
  - apply standard_process.
  - discriminate.
  - repeat constructor; cbn; lia.
  - reflexivity.
Defined.

(** ** What the output holds *)

(** X6: bytes that [sys.stdout] still holds when the scope is entered are
    written to the original destination of stdout by the activation and
    are not captured: after the scope that destination holds what it held
    followed by those bytes, and the temporary file holds what the block
    produced and nothing else. *)
Theorem pending_output_not_captured (W : bool)
  (dd : option (bytes → option text)) (c : Capture) (stdin : option string)
  (acts : list action) w o e fo fe go ge :
  standard w o e fo fe go ge → c ≠ NONE →
  Forall (on_std (fileno fo) (fileno fe)) acts →
  go ≠ ge → go ≠ DevNull → pending fo ≠ [] →
  ∃ s r,
    yields (with_ W dd (proc (run_block acts))) (fresh_manager c stdin, w) s r
    ∧ disk (snd s) !! go = Some (default [] (disk w !! go) ++ pending fo)
    ∧ disk (snd s) !! Temp (next_temp w)
      = Some (captured c (buffered fo) (buffered fe) (fileno fo) acts).
Proof.
  intros Hstd Hc Hacts Hne Hgo Hp.
  destruct (scope_runs W dd c stdin acts _ _ _ _ _ _ _ Hstd Hc Hacts)
    as (s & r & n1 & n2 & Hrun & _ & _ & _ & _ & _ & _ & _ & _ & _
        & _ & _ & _ & _ & Hdisk & _).
  exists s, r. split; [exact Hrun|]. rewrite Hdisk. split.
  - rewrite lookup_insert_ne.
    + rewrite flushed_lookup_other by exact Hne.
      apply flushed_lookup_same; assumption.
    + destruct Hstd as [_ _ _ _ _ _ Hfo _ _ _ _ _ Hfresh].
      intros <-. apply Hfresh in Hfo. lia.
  - apply lookup_insert_eq.
Qed.

Lemma pending_output_not_captured_witness :
  ∃ s r,
    yields (with_ false None (proc (run_block [PyWrite Out [111]])))
      (fresh_manager BOTH None, process [104; 105]) s r
    ∧ disk (snd s) !! Dest 1
      = Some (default [] (disk (process [104; 105]) !! Dest 1) ++ [104; 105])
    ∧ disk (snd s) !! Temp 0
      = Some (captured BOTH true true 1 [PyWrite Out [111]]).
Proof.
  apply (pending_output_not_captured false None BOTH None
           [PyWrite Out [111]] (process [104; 105]) 1 2
           (FileObj 1 false true false [104; 105])
           (FileObj 2 false true false []) (Dest 1) (Dest 2)).
  - apply standard_process.
  - discriminate.
  - repeat constructor.
  - discriminate.
  - discriminate.
  - discriminate.
Defined.

(** X7: when nothing waits in a stream object (the block writes on the
    descriptors, as a child process does, or through objects that do not
    buffer) the temporary file holds the bytes written to the captured
    streams in the order the block wrote them, both streams interleaved
    for mode BOTH, and the output is their decoding. *)
Theorem output_in_program_order (W : bool)
  (dd : option (bytes → option text)) (c : Capture) (stdin : option string)
  (acts : list action) w o e fo fe go ge :
  standard w o e fo fe go ge → c ≠ NONE →
  Forall (on_std (fileno fo) (fileno fe)) acts →
  Forall (direct (buffered fo) (buffered fe)) acts →
  ∃ s r,
    yields (with_ W dd (proc (run_block acts))) (fresh_manager c stdin, w) s r
    ∧ disk (snd s) !! Temp (next_temp w)
      = Some (concat (map (written c (fileno fo)) acts))
    ∧ _output (fst s)
      = match decode_bytes W dd (concat (map (written c (fileno fo)) acts))
        with
        | Ok t => Some t
        | Raise _ => None
        end.
Proof.
  intros Hstd Hc Hacts Hd.
  destruct (scope_runs W dd c stdin acts _ _ _ _ _ _ _ Hstd Hc Hacts)
    as (s & r & n1 & n2 & Hrun & _ & Ho & _ & _ & _ & _ & _ & _ & _
        & _ & _ & _ & _ & Hdisk & _).
  cbv zeta in Ho. rewrite captured_direct in Ho, Hdisk by exact Hd.
  exists s, r. split; [exact Hrun|]. split; [|exact Ho].
  rewrite Hdisk. apply lookup_insert_eq.
Qed.

Lemma output_in_program_order_witness :
  ∃ s r,
    yields (with_ false None
              (proc (run_block [OsWrite 2 [50]; OsWrite 1 [49];
                                OsWrite 2 [51]])))
      (fresh_manager BOTH None, process []) s r
    ∧ disk (snd s) !! Temp 0
      = Some (concat (map (written BOTH 1)
                        [OsWrite 2 [50]; OsWrite 1 [49]; OsWrite 2 [51]]))
    ∧ _output (fst s)
      = match decode_bytes false None
                (concat (map (written BOTH 1)
                           [OsWrite 2 [50]; OsWrite 1 [49]; OsWrite 2 [51]]))
        with
        | Ok t => Some t
        | Raise _ => None
        end.
Proof.
  apply (output_in_program_order false None BOTH None
           [OsWrite 2 [50]; OsWrite 1 [49]; OsWrite 2 [51]]
           (process []) 1 2 (FileObj 1 false true false [])
           (FileObj 2 false true false []) (Dest 1) (Dest 2)).
  - apply standard_process.
  - discriminate.
  - repeat constructor; cbn; lia.
  - repeat constructor.
Defined.



(** X9: when the captured bytes are valid UTF-8 the two decoding branches
    agree: on Windows, whatever the codec of the console, and elsewhere,
    the scope returns and the output is the same text, the decoding of
    the whole buffer. *)
Theorem valid_utf8_same_on_all_platforms (W : bool)
  (dd : option (bytes → option text)) (c : Capture) (stdin : option string)
  (acts : list action) (t : text) w o e fo fe go ge :
  standard w o e fo fe go ge → c ≠ NONE →
  Forall (on_std (fileno fo) (fileno fe)) acts →
  utf8_decode (captured c (buffered fo) (buffered fe) (fileno fo) acts)
  = Some t →
  ∃ s,
    yields (with_ W dd (proc (run_block acts))) (fresh_manager c stdin, w)
      s (Ok ())
    ∧ output (fst s) = Ok (Some t).
Proof.
  intros Hstd Hc Hacts Hdec.
  destruct (scope_runs W dd c stdin acts _ _ _ _ _ _ _ Hstd Hc Hacts)
    as (s & r & n1 & n2 & Hrun & Hr & Ho & _).
  cbv zeta in Hr, Ho.
  rewrite (decode_bytes_utf8 W dd _ t Hdec) in Hr, Ho. subst r.
  exists s. split; [exact Hrun|]. now apply output_set.
Qed.

Lemma valid_utf8_same_on_all_platforms_witness :
  ∃ s,
    yields (with_ true None
              (proc (run_block [OsWrite 1 [195; 169; 10; 104]])))
      (fresh_manager BOTH None, process []) s (Ok ())
    ∧ output (fst s) = Ok (Some [233; 10; 104]).
Proof.
  apply (valid_utf8_same_on_all_platforms true None BOTH None
           [OsWrite 1 [195; 169; 10; 104]] [233; 10; 104]
           (process []) 1 2 (FileObj 1 false true false [])
           (FileObj 2 false true false []) (Dest 1) (Dest 2)).
  - apply standard_process.
  - discriminate.
  - repeat constructor; cbn; lia.
  - reflexivity.
Defined.

(** X10: a capturing scope that ends normally leaves the descriptor table
    it found plus exactly two entries: the duplicates of stdout and stderr
    made by the activation, two distinct descriptors that were not open
    before, on the original files of stdout and stderr. *)
Theorem duplicates_stay_open (W : bool)
  (dd : option (bytes → option text)) (c : Capture) (stdin : option string)
  (acts : list action) (t : text) w o e fo fe go ge :
  standard w o e fo fe go ge → c ≠ NONE →
  Forall (on_std (fileno fo) (fileno fe)) acts →
  decode_bytes W dd (captured c (buffered fo) (buffered fe) (fileno fo) acts)
  = Ok t →
  ∃ s n1 n2,
    yields (with_ W dd (proc (run_block acts))) (fresh_manager c stdin, w)
      s (Ok ())
    ∧ _new_stdout_fd (fst s) = Some n1 ∧ _new_stderr_fd (fst s) = Some n2
    ∧ n1 ≠ n2 ∧ fds w !! n1 = None ∧ fds w !! n2 = None
    ∧ fds (snd s) = <[n2 := ge]> (<[n1 := go]> (fds w))
    ∧ size (fds (snd s)) = S (S (size (fds w))).
Proof.
  intros Hstd Hc Hacts Hdec.
  destruct (scope_runs W dd c stdin acts _ _ _ _ _ _ _ Hstd Hc Hacts)
    as (s & r & n1 & n2 & Hrun & Hr & _ & _ & _ & Hn1 & Hn2 & Hf1 & Hf2
        & Hne & _ & _ & _ & Hfds & _).
  cbv zeta in Hr, Hfds. rewrite Hdec in Hr, Hfds. subst r.
  specialize (Hfds I).
  exists s, n1, n2. split; [exact Hrun|].
  repeat (split; [assumption|]). rewrite Hfds.
  rewrite !map_size_insert_None; [reflexivity|exact Hf1|].
  rewrite lookup_insert_ne by exact Hne. exact Hf2.
Qed.

Lemma duplicates_stay_open_witness :
  ∃ s n1 n2,
    yields (with_ true None (proc (run_block [PyWrite Out [104]])))
      (fresh_manager STDERR None, process []) s (Ok ())
    ∧ _new_stdout_fd (fst s) = Some n1 ∧ _new_stderr_fd (fst s) = Some n2
    ∧ n1 ≠ n2 ∧ fds (process []) !! n1 = None
    ∧ fds (process []) !! n2 = None
    ∧ fds (snd s) = <[n2 := Dest 2]> (<[n1 := Dest 1]> (fds (process [])))
    ∧ size (fds (snd s)) = S (S (size (fds (process [])))).
Proof.
  apply (duplicates_stay_open true None STDERR None [PyWrite Out [104]] []
           (process []) 1 2 (FileObj 1 false true false [])
           (FileObj 2 false true false []) (Dest 1) (Dest 2)).
  - apply standard_process.
  - discriminate.
  - repeat constructor.
  - reflexivity.
Defined.

(** X11: the text conversion of a manager follows its output: in a mode
    other than NONE it raises RuntimeError on the new manager and after
    activation, and after a scope that ended normally it is the
    captured text. *)
Theorem manager_str (W : bool)
  (dd : option (bytes → option text)) (c : Capture) (stdin : option string)
  (acts : list action) (t : text) w o e fo fe go ge :
  standard w o e fo fe go ge → c ≠ NONE →
  Forall (on_std (fileno fo) (fileno fe)) acts →
  decode_bytes W dd (captured c (buffered fo) (buffered fe) (fileno fo) acts)
  = Ok t →
  __str__ (fresh_manager c stdin) = Raise RuntimeError
  ∧ (∃ s1, yields (__enter__ W) (fresh_manager c stdin, w) s1 (Ok ())
           ∧ __str__ (fst s1) = Raise RuntimeError)
  ∧ (∃ s2, yields (with_ W dd (proc (run_block acts)))
             (fresh_manager c stdin, w) s2 (Ok ())
           ∧ __str__ (fst s2) = Ok t).
Proof.
  intros Hstd Hc Hacts Hdec. split; [|split].
  - unfold __str__. rewrite (output_unset c); [reflexivity..|exact Hc].
  - destruct (enter_runs W c stdin _ _ _ _ _ _ _ Hstd Hc)
      as (s1 & Hrun & Ho & Hcap & _).
    exists s1. split; [exact Hrun|].
    unfold __str__. rewrite (output_unset c); [reflexivity|assumption..].
  - destruct (scope_runs W dd c stdin acts _ _ _ _ _ _ _ Hstd Hc Hacts)
      as (s2 & r & n1 & n2 & Hrun & Hr & Ho & _).
    cbv zeta in Hr, Ho. rewrite Hdec in Hr, Ho. subst r.
    exists s2. split; [exact Hrun|].
    unfold __str__. rewrite (output_set _ t Ho). reflexivity.
Qed.

Lemma manager_str_witness :
  __str__ (fresh_manager BOTH None) = Raise RuntimeError
  ∧ (∃ s1, yields (__enter__ false) (fresh_manager BOTH None, process []) s1
             (Ok ())
           ∧ __str__ (fst s1) = Raise RuntimeError)
  ∧ (∃ s2, yields (with_ false None (proc (run_block [OsWrite 1 [49; 10]])))
             (fresh_manager BOTH None, process []) s2 (Ok ())
           ∧ __str__ (fst s2) = Ok [49; 10]).
Proof.
  apply (manager_str false None BOTH None [OsWrite 1 [49; 10]] [49; 10]
           (process []) 1 2 (FileObj 1 false true false [])
           (FileObj 2 false true false []) (Dest 1) (Dest 2)).
  - apply standard_process.
  - discriminate.
  - repeat constructor; cbn; lia.
  - reflexivity.
Defined.

(** ** A standard stream without a descriptor *)

Lemma yields_io_flush_StringIO (w : World) (r : nat) (content : string) :
  objs w !! r = Some (StringIO content false) →
  yields (io_flush r) w w (Ok ()).
Proof.
  intros Hr. unfold yields, io_flush, bind, obj_get, gets.
  cbn. rewrite Hr. reflexivity.
Qed.

Lemma yields_io_fileno_StringIO (w : World) (r : nat) (content : string)
  (b : bool) :
  objs w !! r = Some (StringIO content b) →
  yields (io_fileno r) w w (Raise UnsupportedOperation).
Proof.
  intros Hr. unfold yields, io_fileno, bind, obj_get, gets.
  cbn. rewrite Hr. reflexivity.
Qed.

Ltac step :=
  cbv beta iota; norm;
  eapply yields_bind;
  [ first [ run
          | eapply yields_proc; eapply yields_io_flush_StringIO; heap_lookup ]
  | ].

(** X12: when [sys.stdout] is an in-memory stream, which has no
    descriptor, a capturing scope cannot be entered: the activation raises
    UnsupportedOperation at [sys.stdout.fileno()], the block and the
    finalization do not run and no output is set.  What the activation did
    before stays done: stderr is flushed, [sys.stdin] is replaced when an
    override is given, and the temporary file is open on a descriptor that
    was not open before. *)
Theorem stdout_without_descriptor (W : bool)
  (dd : option (bytes → option text)) (c : Capture) (stdin : option string)
  (block : M State unit) (w : World) (o e : nat) (content : string)
  (fe : fileobj) (ge : file) :
  c ≠ NONE → faults w = None →
  sys_stdout w = Some o → objs w !! o = Some (StringIO content false) →
  sys_stderr w = Some e → objs w !! e = Some (OfFile fe) →
  closed fe = false → fds w !! fileno fe = Some ge →
  ∃ s,
    yields (with_ W dd block) (fresh_manager c stdin, w) s
      (Raise UnsupportedOperation)
    ∧ yields (__enter__ W) (fresh_manager c stdin, w) s
        (Raise UnsupportedOperation)
    ∧ _output (fst s) = None
    ∧ fds w !! temp_fd c (fds w) = None
    ∧ fds (snd s) !! temp_fd c (fds w) = Some (Temp (next_temp w))
    ∧ (∀ fd f, fds w !! fd = Some f → fds (snd s) !! fd = Some f)
    ∧ sys_stdin (snd s)
      = match stdin with
        | Some _ => Some (length (objs w))
        | None => sys_stdin w
        end
    ∧ sys_stdout (snd s) = Some o.
Proof.
  intros Hc Hfl Hso Hoo Hse Heo Hce Hfe.
  pose proof (lookup_lt_Some _ _ _ Hoo) as Hlo.
  pose proof (lookup_lt_Some _ _ _ Heo) as Hle.
  assert (o ≠ e) by (intros ->; congruence).
  destruct w as [T D O si so se nt fl]. simpl in *. subst.
  assert (Henter : ∃ s,
    yields (__enter__ W) (fresh_manager c stdin,
      {| fds := T; disk := D; objs := O; sys_stdin := si;
         sys_stdout := Some o; sys_stderr := Some e; next_temp := nt;
         faults := None |}) s (Raise UnsupportedOperation)
    ∧ _output (fst s) = None
    ∧ T !! temp_fd c T = None
    ∧ fds (snd s) !! temp_fd c T = Some (Temp nt)
    ∧ (∀ fd f, T !! fd = Some f → fds (snd s) !! fd = Some f)
    ∧ sys_stdin (snd s)
      = match stdin with Some _ => Some (length O) | None => si end
    ∧ sys_stdout (snd s) = Some o).
  { unfold __enter__.
    destruct c; [| | |congruence].
    all: eexists; split.
    all: try match goal with |- _ ∧ _ => shelve end.
    all: step; cbv beta iota; norm; decide_branch.
    all: do 13 step.
    all: cbv beta iota; norm.
    all: eapply yields_bind_raise; eapply yields_proc.
    all: eapply yields_io_fileno_StringIO; heap_lookup.
    Unshelve.
    all: norm.
    all: repeat match goal with |- _ ∧ _ => split end.
    all: try reflexivity.
    all: try (destruct stdin; rewrite ?length_insert; reflexivity).
    all: cbv [temp_fd].
    all: try (intros fd f Hfd).
    all: name_fresh.
    all: try assumption.
    all: map_cases. }
  destruct Henter as (s & Hrun & Hfacts).
  exists s. split; [|split; [exact Hrun|exact Hfacts]].
  unfold with_. apply yields_bind_raise. exact Hrun.
Qed.

Lemma stdout_without_descriptor_witness :
  let w := set_objs (<[1%nat := StringIO "" false]>) (process []) in
  ∃ s,
    yields (with_ false None (ret ())) (fresh_manager BOTH (Some "42"), w) s
      (Raise UnsupportedOperation)
    ∧ yields (__enter__ false) (fresh_manager BOTH (Some "42"), w) s
        (Raise UnsupportedOperation)
    ∧ _output (fst s) = None
    ∧ fds w !! temp_fd BOTH (fds w) = None
    ∧ fds (snd s) !! temp_fd BOTH (fds w) = Some (Temp (next_temp w))
    ∧ (∀ fd f, fds w !! fd = Some f → fds (snd s) !! fd = Some f)
    ∧ sys_stdin (snd s) = Some (length (objs w))
    ∧ sys_stdout (snd s) = Some 1%nat.
Proof.
  apply (stdout_without_descriptor false None BOTH (Some "42") (ret ())
           (set_objs (<[1%nat := StringIO "" false]>) (process []))
           1 2 "" (FileObj 2 false true false []) (Dest 2)).
  - discriminate.
  - reflexivity.
  - reflexivity.
  - reflexivity.
  - reflexivity.
  - reflexivity.
  - reflexivity.
  - reflexivity.
Defined.
